(** * GitTime AI front end: a shallow embedding of the React components

    The repository's front end is a handful of React function components
    ([App], [RepoInput], [FeatureList], [FeatureCard], [VersionTimeline],
    [CommitEvolution]) plus three [fetch] wrappers.  Every component is a
    function from props and state to a tree of elements, and every event
    handler is a state transformer, so the embedding is direct:

    - a component becomes a function to a small [view] type that keeps the
      parts of the element tree the properties talk about;
    - [useState] cells become record fields, [setX v] a record update and
      [setX (prev => ...)] an update computed from the state current at
      the time it runs;
    - an [async] handler is split at its [await]: the synchronous prefix
      returns the new state and the request it issued, the continuation
      takes the settled promise.  Handlers are re-created on every render,
      so a handler always reads the state of the latest render.

    Numbers that the code only adds and compares (line counts, lengths) are
    in [Z] or [nat]; JavaScript objects used as dictionaries are [gmap]s
    keyed by strings. *)

From Stdlib Require Import ZArith NArith String Ascii List Lia.
From stdpp Require Import base option list gmap strings pretty sorting.


(** ** JavaScript values, as far as the components inspect them *)

Module JS.

(** A value read from a property that may be missing: [None] is
    [undefined]. *)
Definition maybe (A : Type) : Type := option A.

(** A settled promise. [Rejected m] carries the [message] of the error. *)
Inductive settled (A : Type) : Type :=
| Resolved (a : A)
| Rejected (message : string).
Arguments Resolved {A} a.
Arguments Rejected {A} message.

(** ToBoolean on strings: only the empty string is falsy. *)
Definition truthy_str (s : string) : bool :=
  match s with
  | EmptyString => false
  | String _ _ => true
  end.

(** [x || d] where [x] is a possibly missing string. *)
Definition or_str (x : maybe string) (d : string) : string :=
  match x with
  | Some s => if truthy_str s then s else d
  | None => d
  end.

(** [x || 0] where [x] is a possibly missing integer: [undefined] and [0]
    are both falsy. *)
Definition or_zero (x : maybe Z) : Z :=
  match x with
  | Some n => if Z.eqb n 0 then 0%Z else n
  | None => 0%Z
  end.

(** [x > 0] and [x === 0] on a possibly missing integer: both are false
    on [undefined]. *)
Definition gt_zero (x : maybe Z) : bool :=
  match x with
  | Some n => Z.ltb 0 n
  | None => false
  end.

Definition is_zero (x : maybe Z) : bool :=
  match x with
  | Some n => Z.eqb n 0
  | None => false
  end.

(** ToBoolean on a possibly missing array: every array, the empty one
    included, is truthy; [undefined] is falsy. *)
Definition truthy_arr {A : Type} (x : maybe (list A)) : bool :=
  match x with
  | Some _ => true
  | None => false
  end.

(** The members every plain object inherits from [Object.prototype], each
    with its [length] when it is a function; [__proto__] reads as the
    prototype itself, an object without a [length]. *)
Definition Object_prototype : list (string * option nat) :=
  [("constructor", Some 1); ("hasOwnProperty", Some 1);
   ("isPrototypeOf", Some 1); ("propertyIsEnumerable", Some 1);
   ("toLocaleString", Some 0); ("toString", Some 0); ("valueOf", Some 0);
   ("__defineGetter__", Some 2); ("__defineSetter__", Some 2);
   ("__lookupGetter__", Some 1); ("__lookupSetter__", Some 1);
   ("__proto__", None)].

Fixpoint assoc {A : Type} (key : string) (l : list (string * A)) : option A :=
  match l with
  | [] => None
  | (k, a) :: r => if String.eqb k key then Some a else assoc key r
  end.

Definition inherited (key : string) : option (option nat) :=
  assoc key Object_prototype.

(** What [obj[key]] finds on a plain object: an own property, else a
    member inherited from [Object.prototype], else [undefined]. *)
Inductive found (A : Type) : Type :=
| Own (a : A)
| Inherited (member : string) (length : option nat)
| Missing.
Arguments Own {A} a.
Arguments Inherited {A} member length.
Arguments Missing {A}.

(** [obj[key]] on an object literal. *)
Definition member {A : Type} (obj : list (string * A)) (key : string) : found A :=
  match assoc key obj with
  | Some a => Own a
  | None =>
      match inherited key with
      | Some length => Inherited key length
      | None => Missing
      end
  end.

(** The property key a possibly missing string is used as: [undefined]
    becomes the key ["undefined"]. *)
Definition key_of (x : maybe string) : string := default "undefined" x.

(** Decimal rendering of a template-literal number. *)
Definition show_N (n : N) : string := pretty n.
Definition show_nat (n : nat) : string := pretty n.

End JS.

(** ** components/RepoInput.jsx *)

Module RepoInput.

(** The text of the input is a sequence of UTF-16 code units, which is
    what [String.prototype.trim] works on. *)
Definition text : Type := list N.

(** ECMAScript [WhiteSpace] and [LineTerminator] code points; all of
    them lie in the basic plane, so each is one code unit. *)
Definition isWhiteSpace (c : N) : bool :=
  (N.eqb c 0x9 || N.eqb c 0xA || N.eqb c 0xB || N.eqb c 0xC || N.eqb c 0xD
   || N.eqb c 0x20 || N.eqb c 0xA0 || N.eqb c 0x1680
   || (N.leb 0x2000 c && N.leb c 0x200A)
   || N.eqb c 0x2028 || N.eqb c 0x2029 || N.eqb c 0x202F
   || N.eqb c 0x205F || N.eqb c 0x3000 || N.eqb c 0xFEFF)%bool.

Fixpoint trimStart (s : text) : text :=
  match s with
  | [] => []
  | c :: r => if isWhiteSpace c then trimStart r else s
  end.

Fixpoint trimEnd (s : text) : text :=
  match s with
  | [] => []
  | c :: r =>
      match trimEnd r with
      | [] => if isWhiteSpace c then [] else [c]
      | r' => c :: r'
      end
  end.

(** [url.trim()] *)
Definition trim (s : text) : text := trimEnd (trimStart s).

Definition truthy (s : text) : bool :=
  match s with
  | [] => false
  | _ :: _ => true
  end.

(** [handleSubmit]: the result is the argument of the [onAnalyze] call,
    [None] when [onAnalyze] is not called. *)
Definition handleSubmit (url : text) : option text :=
  if truthy (trim url) then Some (trim url) else None.

(** The [disabled] attributes of the two controls. *)
Definition input_disabled (loading : bool) : bool := loading.

Definition button_disabled (loading : bool) (url : text) : bool :=
  (loading || negb (truthy (trim url)))%bool.

(** What the user can do to the form.  A disabled control receives no
    events; pressing Enter in the text field submits the form through its
    default button, hence only when neither control is disabled. *)
Inductive action : Type :=
| Change (value : text)
| ClickAnalyze
| PressEnter.

(** One user action against the rendered form: the new [url] state and
    the [onAnalyze] call, if any. *)
Definition dispatch (loading : bool) (url : text) (a : action)
  : text * option text :=
  match a with
  | Change value =>
      if input_disabled loading then (url, None) else (value, None)
  | ClickAnalyze =>
      if button_disabled loading url then (url, None)
      else (url, handleSubmit url)
  | PressEnter =>
      if (input_disabled loading || button_disabled loading url)%bool
      then (url, None)
      else (url, handleSubmit url)
  end.

(** Plain ASCII text, for examples. *)
Definition of_string (s : string) : text :=
  map (fun a => N_of_ascii a) (list_ascii_of_string s).

(** A text made of white space only (the empty text included). *)
Definition blank (s : text) : Prop := Forall (fun c => isWhiteSpace c = true) s.

End RepoInput.


(** ** The JSON records the components receive *)

(** A feature as returned by [/api/analyze]. *)
Module Feature.
Record t : Type := mk {
  id : string;
  name : string;
  description : string;
  files : list string
}.
End Feature.

#[global] Instance Feature_eq_dec : EqDecision Feature.t.
Proof. solve_decision. Defined.

(** One node of a version timeline. *)
Module Version.
Record t : Type := mk {
  version : string;
  date : string;
  description : string
}.
End Version.

(** One per-file change record of a commit.  The counts are read with
    [> 0] and [=== 0], the status with a table lookup, so each may be
    missing. *)
Module ChangedFile.
Record t : Type := mk {
  filename : string;
  status : JS.maybe string;
  additions : JS.maybe Z;
  deletions : JS.maybe Z
}.
End ChangedFile.

(** One entry of an evolution list. *)
Module Commit.
Record t : Type := mk {
  sha : string;
  message : string;
  author : string;
  date : string;
  evolution_summary : string;
  total_additions : JS.maybe Z;
  total_deletions : JS.maybe Z;
  files_changed : JS.maybe (list ChangedFile.t)
}.
End Commit.

(** ** components/FeatureCard.jsx *)

Module FeatureCard.

(** [f.split('/')]: the segments between slashes; never empty. *)
Fixpoint split_slash (f : string) : list string :=
  match f with
  | EmptyString => [EmptyString]
  | String c r =>
      if Ascii.eqb c "/" then EmptyString :: split_slash r
      else match split_slash r with
           | seg :: segs => String c seg :: segs
           | [] => [String c EmptyString]
           end
  end.

(** [Array.prototype.pop] as an expression: the last element, or
    [undefined] on an empty array. *)
Definition pop (segs : list string) : JS.maybe string := last segs.

(** [slice(0, n)] *)
Definition slice0 {A : Type} (n : nat) (l : list A) : list A := take n l.

(** The children of [<div className="files">]. *)
Inductive badge : Type :=
| FileName (key : string) (text : JS.maybe string)
| More (k : Z).

(** The text React puts in the badge's [<span>]; [undefined] renders as
    nothing. *)
Definition badge_text (b : badge) : string :=
  match b with
  | FileName _ text => default EmptyString text
  | More k => "+" +:+ pretty k +:+ " more"
  end.

(** [<span key={f}>{f.split('/').pop()}</span>] *)
Definition file_badge (f : string) : badge :=
  FileName f (pop (split_slash f)).

(** [feature.files.length > 0 && (...)]: [None] when the files section is
    not rendered. *)
Definition files_section (feature : Feature.t) : option (list badge) :=
  let files := Feature.files feature in
  if (0 <? Z.of_nat (length files))%Z then
    Some (map file_badge (slice0 5 files)
          ++ (if (5 <? Z.of_nat (length files))%Z
              then [More (Z.of_nat (length files) - 5)]
              else []))
  else None.

Record view : Type := mk_view {
  v_active : bool;
  v_name : string;
  v_description : string;
  v_files : option (list badge)
}.

Definition FeatureCard (feature : Feature.t) (active : bool) : view :=
  {| v_active := active;
     v_name := Feature.name feature;
     v_description := Feature.description feature;
     v_files := files_section feature |}.

(** [b] contains no slash. *)
Definition no_slash (b : string) : Prop :=
  ~ In "/"%char (list_ascii_of_string b).

(** Whether a badge is a file-name badge (and not the [+k more] badge). *)
Definition is_file_name (b : badge) : bool :=
  match b with
  | FileName _ _ => true
  | More _ => false
  end.

End FeatureCard.

(** ** components/FeatureList.jsx *)

Module FeatureList.

(** [f.id === activeId], with [activeId = activeFeature?.id]. *)
Definition is_active (f : Feature.t) (activeId : JS.maybe string) : bool :=
  match activeId with
  | Some a => String.eqb (Feature.id f) a
  | None => false
  end.

(** One card per feature, keyed by [f.id]; clicking card [f] calls
    [onSelect f]. *)
Definition FeatureList (features : list Feature.t) (activeId : JS.maybe string)
  : list (string * FeatureCard.view) :=
  map (fun f => (Feature.id f, FeatureCard.FeatureCard f (is_active f activeId)))
      features.

(** The cards rendered as active. *)
Definition active_cards (cards : list (string * FeatureCard.view))
  : list (string * FeatureCard.view) :=
  List.filter (fun kc => FeatureCard.v_active kc.2) cards.

End FeatureList.

(** ** components/VersionTimeline.jsx *)

Module VersionTimeline.

Inductive view : Type :=
| Loading (name : string)
| NoHistory (name : string) (subtitle : string)
| Timeline (name : string) (count : nat) (plural : bool)
           (nodes : list (nat * Version.t)).

Definition VersionTimeline (feature : Feature.t)
    (versions : JS.maybe (list Version.t)) (loading : bool) : view :=
  if loading then Loading (Feature.name feature)
  else match versions with
       | None | Some [] =>
           NoHistory (Feature.name feature)
                     "No version history could be determined for this feature."
       | Some vs =>
           Timeline (Feature.name feature) (length vs)
                    (1 <? Z.of_nat (length vs))%Z
                    (imap (fun i v => (i, v)) vs)
       end.

(** The component when [versions] is not an array but a member inherited
    from [Object.prototype], of the given [length]: such a member is
    truthy, so [loading] is false and [!versions] fails; a function of
    length 0 passes [versions.length === 0]; with any other member
    [versions.map] is not a function and rendering throws ([None]). *)
Definition given_a_member (feature : Feature.t) (length : option nat) : option view :=
  match length with
  | Some 0 =>
      Some (NoHistory (Feature.name feature)
                      "No version history could be determined for this feature.")
  | _ => None
  end.

End VersionTimeline.

(** ** CommitEvolution (with FileStat and CommitRow) *)

Module CommitEvolution.

(** The two object literals [STATUS_COLOR] and [STATUS_LABEL]. *)
Definition STATUS_COLOR : list (string * string) :=
  [("added", "#3fb950"); ("modified", "#d29922");
   ("removed", "#f85149"); ("renamed", "#bc8cff")].

Definition STATUS_LABEL : list (string * string) :=
  [("added", "A"); ("modified", "M"); ("removed", "D"); ("renamed", "R")].

(** The [background] of the badge: a colour string, or, for a status that
    names an inherited member, that member, which is no colour. *)
Inductive background : Type :=
| Colour (c : string)
| NotAColour (member : string).

(** The child of the badge: a text; nothing ([undefined]); an inherited
    member, which is no text; or the upper case of the first UTF-16 unit
    of a status that does not start with an ASCII character, which is not
    computed here. *)
Inductive label : Type :=
| Text (t : string)
| NoText
| NotText (member : string)
| UpperCaseOf (status : string).

(** [toUpperCase] on one ASCII character: the letters a to z change, all
    other ASCII characters stay. *)
Definition toUpperCase (c : ascii) : ascii :=
  let n := N_of_ascii c in
  if (N.leb 97 n && N.leb n 122)%bool then ascii_of_N (n - 32) else c.

(** [file.status?.[0]?.toUpperCase()].  A first byte below 128 is the
    first UTF-16 unit; for any other status the result is left
    symbolic. *)
Definition status_initial (status : JS.maybe string) : label :=
  match status with
  | Some (String c rest) =>
      if N.ltb (N_of_ascii c) 128
      then Text (String (toUpperCase c) EmptyString)
      else UpperCaseOf (String c rest)
  | _ => NoText
  end.

(** The [evo-stat] spans. *)
Inductive stat : Type :=
| StatAdd (n : Z)
| StatDel (n : Z)
| StatNone.

(** [cond && <span/>] as a list of zero or one child. *)
Definition when {A : Type} (cond : bool) (child : A) : list A :=
  if cond then [child] else [].

Record file_row : Type := mk_file_row {
  fr_background : background;
  fr_badge : label;
  fr_filename : string;
  fr_stats : list stat
}.

Definition FileStat (file : ChangedFile.t) : file_row :=
  {| fr_background :=
       match JS.member STATUS_COLOR (JS.key_of (ChangedFile.status file)) with
       | JS.Own c => Colour (JS.or_str (Some c) "#8b949e")
       | JS.Inherited m _ => NotAColour m
       | JS.Missing => Colour "#8b949e"
       end;
     fr_badge :=
       match JS.member STATUS_LABEL (JS.key_of (ChangedFile.status file)) with
       | JS.Own l =>
           if JS.truthy_str l then Text l
           else status_initial (ChangedFile.status file)
       | JS.Inherited m _ => NotText m
       | JS.Missing => status_initial (ChangedFile.status file)
       end;
     fr_filename := ChangedFile.filename file;
     fr_stats :=
       when (JS.gt_zero (ChangedFile.additions file))
            (StatAdd (default 0%Z (ChangedFile.additions file)))
       ++ when (JS.gt_zero (ChangedFile.deletions file))
               (StatDel (default 0%Z (ChangedFile.deletions file)))
       ++ when (JS.is_zero (ChangedFile.additions file)
                && JS.is_zero (ChangedFile.deletions file))%bool
               StatNone |}.

(** The [evo-file-list] block of an expanded commit. *)
Record file_list : Type := mk_file_list {
  fl_count : nat;
  fl_plural : bool;
  fl_totals : stat * stat;
  fl_rows : list (nat * file_row)
}.

Record detail : Type := mk_detail {
  d_explanation : string;
  d_author : string;
  d_date : string;
  d_files : option file_list
}.

Record commit_row : Type := mk_commit_row {
  cr_open : bool;
  cr_sha : string;
  cr_message : string;
  cr_stats : list stat;
  cr_date : string;
  cr_detail : option detail
}.

(** [CommitRow]; [open] is the component's own state cell. *)
Definition CommitRow (commit : Commit.t) (open : bool) : commit_row :=
  let totalAdds := JS.or_zero (Commit.total_additions commit) in
  let totalDels := JS.or_zero (Commit.total_deletions commit) in
  {| cr_open := open;
     cr_sha := Commit.sha commit;
     cr_message := Commit.message commit;
     cr_stats :=
       when (0 <? totalAdds)%Z (StatAdd totalAdds)
       ++ when (0 <? totalDels)%Z (StatDel totalDels);
     cr_date := Commit.date commit;
     cr_detail :=
       if open then
         Some {| d_explanation := Commit.evolution_summary commit;
                 d_author := Commit.author commit;
                 d_date := Commit.date commit;
                 d_files :=
                   match Commit.files_changed commit with
                   | Some (f :: fs) =>
                       let files := f :: fs in
                       Some {| fl_count := length files;
                               fl_plural := (1 <? Z.of_nat (length files))%Z;
                               fl_totals := (StatAdd totalAdds, StatDel totalDels);
                               fl_rows := imap (fun i f => (i, FileStat f)) files |}
                   | _ => None
                   end |}
       else None |}.

(** What the panel shows. *)
Inductive view : Type :=
| Loading (name : string)
| NoEvolution (name : string) (subtitle : string)
| Panel (name : string)
        (totalCommits : nat) (plural : bool) (totalAdds totalDels : Z)
        (rows : list (string * commit_row)).

(** [evolution.reduce((s, c) => s + (c.total_additions || 0), 0)] *)
Definition sum_field (field : Commit.t -> JS.maybe Z) (evolution : list Commit.t) : Z :=
  fold_left (fun s c => (s + JS.or_zero (field c))%Z) evolution 0%Z.

(** [CommitEvolution].  [opened i] is the [open] state of the row at
    index [i] (all [false] when the panel is first mounted); the row's key
    is [c.sha + i]. *)
Definition CommitEvolution (feature : Feature.t)
    (evolution : JS.maybe (list Commit.t)) (loading : bool)
    (opened : nat -> bool) : view :=
  if loading then Loading (Feature.name feature)
  else match evolution with
       | None | Some [] =>
           NoEvolution (Feature.name feature)
                       "No commit-level evolution could be determined."
       | Some ev =>
           let totalCommits := length ev in
           let totalAdds := sum_field Commit.total_additions ev in
           let totalDels := sum_field Commit.total_deletions ev in
           Panel (Feature.name feature)
                 totalCommits (1 <? Z.of_nat totalCommits)%Z totalAdds totalDels
                 (imap (fun i c => (Commit.sha c +:+ pretty i, CommitRow c (opened i))) ev)
       end.

(** The component when [evolution] is not an array but a member inherited
    from [Object.prototype], of the given [length]: a function of length 0
    passes [evolution.length === 0]; with any other member
    [evolution.reduce] is not a function and rendering throws ([None]). *)
Definition given_a_member (feature : Feature.t) (length : option nat) : option view :=
  match length with
  | Some 0 =>
      Some (NoEvolution (Feature.name feature)
                        "No commit-level evolution could be determined.")
  | _ => None
  end.

(** The rows of a rendered panel, top to bottom; the other views have
    none. *)
Definition panel_rows (v : view) : list (string * commit_row) :=
  match v with
  | Panel _ _ _ _ _ rows => rows
  | _ => []
  end.

(** The sum of one count over all entries, a missing count standing for
    0. *)
Definition total (field : Commit.t -> JS.maybe Z) (evolution : list Commit.t) : Z :=
  foldr (fun c acc => (default 0%Z (field c) + acc)%Z) 0%Z evolution.

(** The React keys of the rows of a rendered panel. *)
Definition row_keys (v : view) : list string := (panel_rows v).*1.

End CommitEvolution.

(** ** The fetch wrappers at the end of App.jsx *)

Module Api.

(** A parsed JSON body, with the properties the front end reads.  Bodies
    are JSON objects, and the [detail] of an error body is a string when
    present (as FastAPI sends it for an [HTTPException]). *)
Record body : Type := mk_body {
  detail : JS.maybe string;
  repo : string;
  features : list Feature.t;
  versions : JS.maybe (list Version.t);
  evolution : JS.maybe (list Commit.t)
}.

(** [{}] *)
Definition empty_body : body :=
  {| detail := None; repo := EmptyString; features := [];
     versions := None; evolution := None |}.

(** A [Response]: [json] is what [res.json()] settles to, [inl m] being
    a rejection with message [m] (the body is not JSON). *)
Record response : Type := mk_response {
  ok : bool;
  status : N;
  json : string + body
}.

(** What [await fetch(...)] gives: a network failure rejects. *)
Inductive fetched : Type :=
| NetworkError (message : string)
| Response (res : response).

(** The request a wrapper sends. *)
Inductive payload : Type :=
| RepoUrl (repo_url : RepoInput.text)
| RepoFeature (repo : string) (feature : Feature.t).

Record request : Type := mk_request {
  endpoint : string;
  content : payload
}.

Definition API_BASE : string := "/api".

(** The part the three wrappers share after [await fetch]:
<<
  if (!res.ok) {
    const err = await res.json().catch(() => ({}));
    throw new Error(err.detail || `Error ${res.status}`);
  }
  return res.json();
>> *)
Definition receive (reply : fetched) : JS.settled body :=
  match reply with
  | NetworkError m => JS.Rejected m
  | Response res =>
      if negb (ok res) then
        let err := match json res with
                   | inr b => b
                   | inl _ => empty_body
                   end in
        JS.Rejected (JS.or_str (detail err) ("Error " +:+ JS.show_N (status res)))
      else
        match json res with
        | inr b => JS.Resolved b
        | inl m => JS.Rejected m
        end
  end.

(** Each wrapper: the request it posts, and how it settles on a reply. *)
Definition analyzeRepo_request (repoUrl : RepoInput.text) : request :=
  {| endpoint := API_BASE +:+ "/analyze"; content := RepoUrl repoUrl |}.

Definition analyzeRepo (reply : fetched) : JS.settled body := receive reply.

Definition getFeatureTimeline_request (repo : string) (feature : Feature.t) : request :=
  {| endpoint := API_BASE +:+ "/feature-timeline"; content := RepoFeature repo feature |}.

Definition getFeatureTimeline (reply : fetched) : JS.settled body := receive reply.

Definition getFeatureEvolution_request (repo : string) (feature : Feature.t) : request :=
  {| endpoint := API_BASE +:+ "/feature-evolution"; content := RepoFeature repo feature |}.

Definition getFeatureEvolution (reply : fetched) : JS.settled body := receive reply.

End Api.

(** ** App.jsx *)

Module App.

Inductive tab : Type := timeline | evolution.

(** The nine [useState] cells. *)
Record state : Type := mk_state {
  loading : bool;
  error : string;
  analysis : option Api.body;
  activeFeature : option Feature.t;
  activeTab : tab;
  timelineLoading : bool;
  evolutionLoading : bool;
  versions : gmap string (JS.maybe (list Version.t));
  evolutions : gmap string (JS.maybe (list Commit.t))
}.

(** The state of the first render. *)
Definition initial : state :=
  {| loading := false; error := EmptyString; analysis := None; activeFeature := None;
     activeTab := timeline; timelineLoading := false; evolutionLoading := false;
     versions := ∅; evolutions := ∅ |}.

Definition setLoading (v : bool) (s : state) : state :=
  mk_state v (error s) (analysis s) (activeFeature s) (activeTab s)
           (timelineLoading s) (evolutionLoading s) (versions s) (evolutions s).

Definition setError (v : string) (s : state) : state :=
  mk_state (loading s) v (analysis s) (activeFeature s) (activeTab s)
           (timelineLoading s) (evolutionLoading s) (versions s) (evolutions s).

Definition setAnalysis (v : option Api.body) (s : state) : state :=
  mk_state (loading s) (error s) v (activeFeature s) (activeTab s)
           (timelineLoading s) (evolutionLoading s) (versions s) (evolutions s).

Definition setActiveFeature (v : option Feature.t) (s : state) : state :=
  mk_state (loading s) (error s) (analysis s) v (activeTab s)
           (timelineLoading s) (evolutionLoading s) (versions s) (evolutions s).

Definition setActiveTab (v : tab) (s : state) : state :=
  mk_state (loading s) (error s) (analysis s) (activeFeature s) v
           (timelineLoading s) (evolutionLoading s) (versions s) (evolutions s).

Definition setTimelineLoading (v : bool) (s : state) : state :=
  mk_state (loading s) (error s) (analysis s) (activeFeature s) (activeTab s)
           v (evolutionLoading s) (versions s) (evolutions s).

Definition setEvolutionLoading (v : bool) (s : state) : state :=
  mk_state (loading s) (error s) (analysis s) (activeFeature s) (activeTab s)
           (timelineLoading s) v (versions s) (evolutions s).

(** [setVersions] and [setEvolutions] take the updater function; a plain
    value, as in [setVersions({})], is the constant updater. *)
Definition setVersions
    (upd : gmap string (JS.maybe (list Version.t)) -> gmap string (JS.maybe (list Version.t)))
    (s : state) : state :=
  mk_state (loading s) (error s) (analysis s) (activeFeature s) (activeTab s)
           (timelineLoading s) (evolutionLoading s) (upd (versions s)) (evolutions s).

Definition setEvolutions
    (upd : gmap string (JS.maybe (list Commit.t)) -> gmap string (JS.maybe (list Commit.t)))
    (s : state) : state :=
  mk_state (loading s) (error s) (analysis s) (activeFeature s) (activeTab s)
           (timelineLoading s) (evolutionLoading s) (versions s) (upd (evolutions s)).

(** The own property of a cache at [key]: a missing key and a key holding
    [undefined] read alike.  This is [obj[key]] whenever the key is an own
    property or names no inherited member; [read] is [obj[key]] in
    general. *)
Definition get {A : Type} (obj : gmap string (JS.maybe A)) (key : string) : JS.maybe A :=
  mjoin (obj !! key).

(** [obj[key]] on a cache, which is a plain object: the own property when
    there is one (even one holding [undefined]), else a member inherited
    from [Object.prototype], else [undefined]. *)
Definition read {A : Type} (obj : gmap string (JS.maybe (list A))) (key : string)
  : JS.found (JS.maybe (list A)) :=
  match obj !! key with
  | Some v => JS.Own v
  | None =>
      match JS.inherited key with
      | Some length => JS.Inherited key length
      | None => JS.Missing
      end
  end.

(** ToBoolean of [obj[key]]: an array is truthy, and so is every inherited
    member. *)
Definition holds {A : Type} (obj : gmap string (JS.maybe (list A))) (key : string) : bool :=
  match read obj key with
  | JS.Own v => JS.truthy_arr v
  | JS.Inherited _ _ => true
  | JS.Missing => false
  end.

(** A handler suspended at its [await], with what it closed over. *)
Inductive task : Type :=
| AwaitAnalyze (url : RepoInput.text)
| AwaitTimeline (repo : string) (feature : Feature.t)
| AwaitEvolution (repo : string) (feature : Feature.t).

Definition request_of (t : task) : Api.request :=
  match t with
  | AwaitAnalyze url => Api.analyzeRepo_request url
  | AwaitTimeline repo f => Api.getFeatureTimeline_request repo f
  | AwaitEvolution repo f => Api.getFeatureEvolution_request repo f
  end.

(** *** handleAnalyze *)

(** Up to [await analyzeRepo(url)]. *)
Definition handleAnalyze_start (s : state) (url : RepoInput.text) : state * list task :=
  let s := setLoading true s in
  let s := setError EmptyString s in
  let s := setAnalysis None s in
  let s := setActiveFeature None s in
  let s := setVersions (fun _ => ∅) s in
  let s := setEvolutions (fun _ => ∅) s in
  (s, [AwaitAnalyze url]).

(** From the settled [analyzeRepo(url)] on: [try] or [catch], then
    [finally]. *)
Definition handleAnalyze_settle (s : state) (r : JS.settled Api.body) : state :=
  let s := match r with
           | JS.Resolved data => setAnalysis (Some data) s
           | JS.Rejected message =>
               setError (JS.or_str (Some message) "Something went wrong") s
           end in
  setLoading false s.

(** *** fetchTimeline *)

(** Up to [await getFeatureTimeline(analysis.repo, feature)].  With
    [analysis] still [null], reading [analysis.repo] throws inside the
    [try], so [catch] and [finally] run at once and nothing is sent. *)
Definition fetchTimeline_start (s : state) (feature : Feature.t) : state * list task :=
  if holds (versions s) (Feature.id feature) then (s, [])
  else
    let s1 := setTimelineLoading true s in
    match analysis s with
    | Some a => (s1, [AwaitTimeline (Api.repo a) feature])
    | None =>
        let s2 := setVersions (fun prev => <[Feature.id feature := Some []]> prev) s1 in
        (setTimelineLoading false s2, [])
    end.

Definition fetchTimeline_settle (s : state) (feature : Feature.t)
    (r : JS.settled Api.body) : state :=
  let s := match r with
           | JS.Resolved data =>
               setVersions (fun prev => <[Feature.id feature := Api.versions data]> prev) s
           | JS.Rejected _ =>
               setVersions (fun prev => <[Feature.id feature := Some []]> prev) s
           end in
  setTimelineLoading false s.

(** *** fetchEvolution *)

Definition fetchEvolution_start (s : state) (feature : Feature.t) : state * list task :=
  if holds (evolutions s) (Feature.id feature) then (s, [])
  else
    let s1 := setEvolutionLoading true s in
    match analysis s with
    | Some a => (s1, [AwaitEvolution (Api.repo a) feature])
    | None =>
        let s2 := setEvolutions (fun prev => <[Feature.id feature := Some []]> prev) s1 in
        (setEvolutionLoading false s2, [])
    end.

Definition fetchEvolution_settle (s : state) (feature : Feature.t)
    (r : JS.settled Api.body) : state :=
  let s := match r with
           | JS.Resolved data =>
               setEvolutions (fun prev => <[Feature.id feature := Api.evolution data]> prev) s
           | JS.Rejected _ =>
               setEvolutions (fun prev => <[Feature.id feature := Some []]> prev) s
           end in
  setEvolutionLoading false s.

(** *** handleSelectFeature and handleTabSwitch

    Neither reads a cell it has just set, so reading from the state being
    built is the same as reading from the render's closure. *)
Definition handleSelectFeature (s : state) (feature : Feature.t) : state * list task :=
  let s1 := setActiveFeature (Some feature) s in
  match activeTab s with
  | timeline => fetchTimeline_start s1 feature
  | evolution => fetchEvolution_start s1 feature
  end.

Definition handleTabSwitch (s : state) (t : tab) : state * list task :=
  let s1 := setActiveTab t s in
  match activeFeature s with
  | Some f =>
      match t with
      | timeline => fetchTimeline_start s1 f
      | evolution => fetchEvolution_start s1 f
      end
  | None => (s1, [])
  end.

(** *** What [App] renders *)

(** The detail panel; [Throws] when rendering it raises a [TypeError]. *)
Inductive panel : Type :=
| TimelinePanel (v : VersionTimeline.view)
| EvolutionPanel (v : CommitEvolution.view)
| Throws.

(** [<VersionTimeline versions={versions[id]} loading={... && !versions[id]} />] *)
Definition timeline_panel (s : state) (f : Feature.t) : panel :=
  match read (versions s) (Feature.id f) with
  | JS.Inherited _ length =>
      match VersionTimeline.given_a_member f length with
      | Some v => TimelinePanel v
      | None => Throws
      end
  | _ =>
      TimelinePanel
        (VersionTimeline.VersionTimeline f
           (get (versions s) (Feature.id f))
           (timelineLoading s
            && negb (JS.truthy_arr (get (versions s) (Feature.id f)))))
  end.

(** [<CommitEvolution evolution={evolutions[id]} loading={... && !evolutions[id]} />] *)
Definition evolution_panel (s : state) (f : Feature.t) (opened : nat -> bool) : panel :=
  match read (evolutions s) (Feature.id f) with
  | JS.Inherited _ length =>
      match CommitEvolution.given_a_member f length with
      | Some v => EvolutionPanel v
      | None => Throws
      end
  | _ =>
      EvolutionPanel
        (CommitEvolution.CommitEvolution f
           (get (evolutions s) (Feature.id f))
           (evolutionLoading s
            && negb (JS.truthy_arr (get (evolutions s) (Feature.id f))))
           opened)
  end.

Record results : Type := mk_results {
  r_repo : string;
  r_cards : list (string * FeatureCard.view);
  r_panel : option panel
}.

Record view : Type := mk_view {
  v_input_loading : bool;
  v_error : option string;
  v_spinner : bool;
  v_results : option results;
  v_empty_state : bool
}.

(** [opened] gives the [open] cells of the commit rows currently mounted. *)
Definition render (s : state) (opened : nat -> bool) : view :=
  {| v_input_loading := loading s;
     v_error := if JS.truthy_str (error s) then Some (error s) else None;
     v_spinner := loading s;
     v_results :=
       match analysis s with
       | Some a =>
           Some {| r_repo := Api.repo a;
                   r_cards := FeatureList.FeatureList (Api.features a)
                                (Feature.id <$> activeFeature s);
                   r_panel :=
                     match activeFeature s with
                     | Some f =>
                         Some match activeTab s with
                              | timeline => timeline_panel s f
                              | evolution => evolution_panel s f opened
                              end
                     | None => None
                     end |}
       | None => None
       end;
     v_empty_state :=
       match analysis s with
       | Some _ => false
       | None => negb (loading s) && negb (JS.truthy_str (error s))
       end |}.

End App.

(** ** The page at run time

    React runs one handler at a time.  Between two handlers the page is
    re-rendered, promises issued earlier are still outstanding, and any of
    them may settle next.  [world] is the state of the latest render
    together with the suspended handlers; [issued] logs every request
    sent, oldest first. *)

Module Runtime.

Record world : Type := mk_world {
  ui : App.state;
  pending : list App.task;
  issued : list Api.request
}.

Definition boot : world :=
  {| ui := App.initial; pending := []; issued := [] |}.

Inductive event : Type :=
| Analyze (url : RepoInput.text)
| SelectFeature (feature : Feature.t)
| TabSwitch (t : App.tab)
| Settle (i : nat) (reply : Api.fetched).

(** Resume the suspended handler [t] with the reply to its request. *)
Definition resume (s : App.state) (t : App.task) (reply : Api.fetched) : App.state :=
  match t with
  | App.AwaitAnalyze _ => App.handleAnalyze_settle s (Api.analyzeRepo reply)
  | App.AwaitTimeline _ f => App.fetchTimeline_settle s f (Api.getFeatureTimeline reply)
  | App.AwaitEvolution _ f => App.fetchEvolution_settle s f (Api.getFeatureEvolution reply)
  end.

Definition spawn (w : world) (r : App.state * list App.task) : world :=
  {| ui := r.1;
     pending := pending w ++ r.2;
     issued := issued w ++ map App.request_of r.2 |}.

Definition step (w : world) (e : event) : world :=
  match e with
  | Analyze url => spawn w (App.handleAnalyze_start (ui w) url)
  | SelectFeature f => spawn w (App.handleSelectFeature (ui w) f)
  | TabSwitch t => spawn w (App.handleTabSwitch (ui w) t)
  | Settle i reply =>
      match pending w !! i with
      | Some t =>
          {| ui := resume (ui w) t reply;
             pending := delete i (pending w);
             issued := issued w |}
      | None => w
      end
  end.

Definition run (w : world) (es : list event) : world := fold_left step es w.

(** Which events the rendered page offers: the form submits a trimmed,
    non-empty URL and is disabled while [loading]; feature cards exist
    for the features of the loaded analysis; the tab buttons exist once a
    feature is active; only an outstanding request can settle. *)
Definition offered (w : world) (e : event) : bool :=
  match e with
  | Analyze url =>
      negb (App.loading (ui w))
      && bool_decide (RepoInput.handleSubmit url = Some url)
  | SelectFeature f =>
      match App.analysis (ui w) with
      | Some a => bool_decide (f ∈ Api.features a)
      | None => false
      end
  | TabSwitch _ =>
      match App.analysis (ui w), App.activeFeature (ui w) with
      | Some _, Some _ => true
      | _, _ => false
      end
  | Settle i _ => bool_decide (i < length (pending w))
  end.

(** A run in which every event was offered when it happened. *)
Fixpoint feasible (w : world) (es : list event) : bool :=
  match es with
  | [] => true
  | e :: es' => offered w e && feasible (step w e) es'
  end.

(** Whether request [r] asks for the evolution of the feature with id
    [fid], and how many requests of [rs] do. *)
Definition asks_evolution (fid : string) (r : Api.request) : bool :=
  match Api.content r with
  | Api.RepoFeature _ f =>
      String.eqb (Api.endpoint r) "/api/feature-evolution"
      && String.eqb (Feature.id f) fid
  | Api.RepoUrl _ => false
  end.

Definition evolution_requests (fid : string) (rs : list Api.request) : nat :=
  length (List.filter (asks_evolution fid) rs).

(** The id of the feature a suspended fetch is for. *)
Definition task_feature (t : App.task) : option string :=
  match t with
  | App.AwaitAnalyze _ => None
  | App.AwaitTimeline _ f => Some (Feature.id f)
  | App.AwaitEvolution _ f => Some (Feature.id f)
  end.

(** How many [getFeatureEvolution] calls for the feature with id [fid]
    are outstanding. *)
Definition awaits_evolution (fid : string) (t : App.task) : bool :=
  match t with
  | App.AwaitEvolution _ f => String.eqb (Feature.id f) fid
  | _ => false
  end.

Definition inflight_evolution (fid : string) (w : world) : nat :=
  length (List.filter (awaits_evolution fid) (pending w)).

(** The same for [getFeatureTimeline]. *)
Definition asks_timeline (fid : string) (r : Api.request) : bool :=
  match Api.content r with
  | Api.RepoFeature _ f =>
      String.eqb (Api.endpoint r) "/api/feature-timeline"
      && String.eqb (Feature.id f) fid
  | Api.RepoUrl _ => false
  end.

Definition timeline_requests (fid : string) (rs : list Api.request) : nat :=
  length (List.filter (asks_timeline fid) rs).

Definition awaits_timeline (fid : string) (t : App.task) : bool :=
  match t with
  | App.AwaitTimeline _ f => String.eqb (Feature.id f) fid
  | _ => false
  end.

Definition inflight_timeline (fid : string) (w : world) : nat :=
  length (List.filter (awaits_timeline fid) (pending w)).

(** Nothing in the world refers to the feature id [fid]: no cache entry,
    no outstanding feature request, not the active feature. *)
Definition quiet (fid : string) (w : world) : Prop :=
  App.get (App.versions (ui w)) fid = None
  /\ App.get (App.evolutions (ui w)) fid = None
  /\ (forall t, t ∈ pending w -> task_feature t <> Some fid)
  /\ (forall f, App.activeFeature (ui w) = Some f -> Feature.id f <> fid).

(** How many [analyzeRepo] calls are outstanding. *)
Definition awaits_analysis (t : App.task) : bool :=
  match t with
  | App.AwaitAnalyze _ => true
  | _ => false
  end.

Definition analyses_outstanding (w : world) : nat :=
  length (List.filter awaits_analysis (pending w)).

Definition is_analyze (e : event) : bool :=
  match e with
  | Analyze _ => true
  | _ => false
  end.


(** The cells of the page agree with each other and with the outstanding
    analysis. *)
Definition consistent (w : world) : Prop :=
  analyses_outstanding w = (if App.loading (ui w) then 1 else 0)
  /\ (App.loading (ui w) = true ->
      App.error (ui w) = EmptyString
      /\ App.analysis (ui w) = None
      /\ App.activeFeature (ui w) = None)
  /\ (App.error (ui w) <> EmptyString -> App.analysis (ui w) = None)
  /\ (forall f, App.activeFeature (ui w) = Some f ->
        exists a, App.analysis (ui w) = Some a /\ f ∈ Api.features a).

End Runtime.

(** ** The evolution pipeline behind [/api/feature-evolution]

    The back end is not part of the sources at hand; the front end only
    displays what it returns.  Its ordering contract is modelled from the
    specification (sections 3, 4.2 to 4.4 and 5). *)

Module Pipeline.

(** Modelled from the spec: the status of a ChangedFile (section 3), whose
    declaration is missing: "added | modified | removed | renamed". *)
Inductive file_status : Type := added | modified | removed | renamed.

(** Modelled from the spec: the ChangedFile record (section 3), whose
    declaration is missing: "path, status, additions count, deletions
    count". *)
Record changed_file : Type := mk_changed_file {
  path : string;
  status : file_status;
  additions : Z;
  deletions : Z
}.

(** Modelled from the spec: the Commit record (section 3), whose
    declaration is missing: "identifier (content hash), author, timestamp,
    message, ordered list of changed-file records". *)
Record commit : Type := mk_commit {
  identifier : string;
  author : string;
  timestamp : Z;
  message : string;
  changes : list changed_file
}.

(** Modelled from the spec: the ordering key of the History Store,
    whose code is missing; "Ordering key = timestamp (ties broken by
    identifier for determinism)". *)
Definition before (a b : commit) : Prop :=
  (timestamp a < timestamp b)%Z
  ∨ (timestamp a = timestamp b ∧ String.leb (identifier a) (identifier b) = true).

#[global] Instance before_dec : RelDecision before.
Proof. intros a b. unfold before. solve_decision. Defined.

(** Modelled from the spec: [load] of the History Store, whose code is
    missing; whatever order the hosting API lists the commits in, the
    store keeps them "totally ordered by timestamp". *)
Definition load (listed : list commit) : list commit :=
  merge_sort before listed.

(** Modelled from the spec: the test of the Relevance Filter, whose code
    is missing; a commit is relevant when "the intersection of its
    changed-file paths with fileSet is non-empty", paths compared as exact
    strings. *)
Definition touches (fileSet : gset string) (c : commit) : bool :=
  existsb (fun f => bool_decide (path f ∈ fileSet)) (changes c).

(** Modelled from the spec: the Relevance Filter's [select], whose code
    is missing; the relevant commits "in ascending timestamp order", the
    others silently left out. *)
Definition select (history : list commit) (fileSet : gset string) : list commit :=
  List.filter (touches fileSet) history.

(** Modelled from the spec: the Diff Aggregator's [aggregate], whose code
    is missing; "only files in fileSet are counted toward totals", and a
    file with no added or deleted line is kept. *)
Definition aggregate (c : commit) (fileSet : gset string)
  : list changed_file * Z * Z :=
  let perFile := List.filter (fun f => bool_decide (path f ∈ fileSet)) (changes c) in
  (perFile,
   fold_left (fun s f => (s + additions f)%Z) perFile 0%Z,
   fold_left (fun s f => (s + deletions f)%Z) perFile 0%Z).

(** Modelled from the spec: the EvolutionEntry record (section 3), whose
    declaration is missing: "reference to a Commit, derived total
    additions/deletions ..., and a narrative summary string". *)
Record entry : Type := mk_entry {
  of_commit : commit;
  perFile : list changed_file;
  totalAdditions : Z;
  totalDeletions : Z;
  narrative : string
}.

(** Modelled from the spec: the narrative of an entry whose summary call
    failed or timed out (section 4.4), a constant of the missing code. *)
Definition fallback : string := "summary unavailable".

(** Modelled from the spec: how the Evolution Narrator, whose code is
    missing, gathers the summaries.  They are requested in parallel and
    come back in any order: [finished] lists them as they complete, each
    with the index of its commit and the text, [None] for a failed call;
    slot [i] receives the summary of commit [i]. *)
Definition collect (n : nat) (finished : list (nat * option string))
  : list (option string) :=
  fold_left (fun slots '(i, text) => <[i := Some (default fallback text)]> slots)
            finished (replicate n None).

(** Modelled from the spec: the Evolution Narrator's [narrate], whose
    code is missing.  The list of entries is "constructed
    index-preserving"; a commit whose summary failed or never arrived gets
    the fallback narrative, so no entry is dropped. *)
Definition narrate (fileSet : gset string) (ordered : list commit)
    (finished : list (nat * option string)) : list entry :=
  let slots := collect (length ordered) finished in
  imap (fun i c =>
          let '(files, adds, dels) := aggregate c fileSet in
          {| of_commit := c; perFile := files;
             totalAdditions := adds; totalDeletions := dels;
             narrative := default fallback (mjoin (slots !! i)) |})
       ordered.

(** Modelled from the spec: the whole feature-evolution request, whose
    code is missing: load, select by the feature's file set, narrate. *)
Definition evolution (listed : list commit) (feature : Feature.t)
    (finished : list (nat * option string)) : list entry :=
  let fileSet : gset string := list_to_set (Feature.files feature) in
  narrate fileSet (select (load listed) fileSet) finished.

(** Modelled from the spec: the status string sent to the presentation
    layer, whose code is missing; the four names of section 3, which are
    the keys of [STATUS_LABEL]. *)
Definition status_name (s : file_status) : string :=
  match s with
  | added => "added"
  | modified => "modified"
  | removed => "removed"
  | renamed => "renamed"
  end.

(** Modelled from the spec: the per-file change record the presentation
    layer receives (section 6), whose code is missing: "path, status,
    additions, deletions". *)
Definition present_file (f : changed_file) : ChangedFile.t :=
  {| ChangedFile.filename := path f;
     ChangedFile.status := Some (status_name (status f));
     ChangedFile.additions := Some (additions f);
     ChangedFile.deletions := Some (deletions f) |}.

(** Modelled from the spec: the entry the presentation layer receives
    (section 6), whose code is missing.  How a timestamp is printed and
    how an identifier is shortened is left open there, hence the two
    parameters. *)
Definition present (show_date : Z -> string) (short : string -> string)
    (e : entry) : Commit.t :=
  {| Commit.sha := short (identifier (of_commit e));
     Commit.message := message (of_commit e);
     Commit.author := author (of_commit e);
     Commit.date := show_date (timestamp (of_commit e));
     Commit.evolution_summary := narrative e;
     Commit.total_additions := Some (totalAdditions e);
     Commit.total_deletions := Some (totalDeletions e);
     Commit.files_changed := Some (map present_file (perFile e)) |}.

(** The order on commits that the caller sees: by timestamp. *)
Definition not_later (a b : commit) : Prop := (timestamp a <= timestamp b)%Z.

Definition earlier (a b : commit) : Prop := (timestamp a < timestamp b)%Z.

End Pipeline.

(** ** Sample data for the worked runs *)

Module Sample.

Definition login : Feature.t :=
  {| Feature.id := "f1"; Feature.name := "Login";
     Feature.description := "Sign-in flow";
     Feature.files := ["src/auth/login.js"; "src/auth/session.js"] |}.

(** Another repository's feature that happens to get the same id. *)
Definition search : Feature.t :=
  {| Feature.id := "f1"; Feature.name := "Search";
     Feature.description := "Full-text search";
     Feature.files := ["lib/search/index.js"] |}.

Definition octo : Api.body :=
  {| Api.detail := None; Api.repo := "octo/app"; Api.features := [login];
     Api.versions := None; Api.evolution := None |}.

Definition acme : Api.body :=
  {| Api.detail := None; Api.repo := "acme/site"; Api.features := [search];
     Api.versions := None; Api.evolution := None |}.

Definition v1 : Version.t :=
  {| Version.version := "v1.0"; Version.date := "2024-01-05";
     Version.description := "First sign-in form" |}.

Definition octo_timeline : Api.body :=
  {| Api.detail := None; Api.repo := EmptyString; Api.features := [];
     Api.versions := Some [v1]; Api.evolution := None |}.

Definition ok_reply (b : Api.body) : Api.fetched :=
  Api.Response {| Api.ok := true; Api.status := 200; Api.json := inr b |}.

Definition error_reply (status : N) (detail : JS.maybe string) : Api.fetched :=
  Api.Response
    {| Api.ok := false; Api.status := status;
       Api.json := inr {| Api.detail := detail; Api.repo := EmptyString; Api.features := [];
                          Api.versions := None; Api.evolution := None |} |}.

Definition octo_url : RepoInput.text := RepoInput.of_string "octo/app".
Definition acme_url : RepoInput.text := RepoInput.of_string "acme/site".

(** The page after [octo/app] was analysed. *)
Definition analysed : list Runtime.event :=
  [Runtime.Analyze octo_url; Runtime.Settle 0 (ok_reply octo)].

(** The evolution tab with [login] selected and its request outstanding. *)
Definition evolution_requested : list Runtime.event :=
  analysed ++ [Runtime.SelectFeature login; Runtime.TabSwitch App.evolution].

(** ... and the card clicked again before the request has settled. *)
Definition clicked_twice : list Runtime.event :=
  evolution_requested ++ [Runtime.SelectFeature login].

(** ... or the request failing with a 500. *)
Definition evolution_failed : list Runtime.event :=
  evolution_requested
  ++ [Runtime.Settle 1 (error_reply 500 (Some "GitHub API rate limit exceeded"))].

(** A timeline request for [login] is outstanding when the user analyses
    [acme/site]; the old reply lands first, then the new analysis, and the
    user opens [search]. *)
Definition reanalysed : list Runtime.event :=
  analysed
  ++ [Runtime.SelectFeature login;
      Runtime.Analyze acme_url;
      Runtime.Settle 0 (ok_reply octo_timeline);
      Runtime.Settle 0 (ok_reply acme);
      Runtime.SelectFeature search].

(** A feature with seven files. *)
Definition editor : Feature.t :=
  {| Feature.id := "f2"; Feature.name := "Editor";
     Feature.description := "Rich text editor";
     Feature.files := ["src/editor/index.js"; "src/editor/toolbar.js";
                       "src/editor/keys.js"; "README.md"; "src/editor/undo.js";
                       "src/editor/paste.js"; "src/editor/theme.css"] |}.

(** A pure rename, and two evolution entries, the first without a
    [total_deletions] field. *)
Definition moved : ChangedFile.t :=
  {| ChangedFile.filename := "src/auth/session.js";
     ChangedFile.status := Some "renamed";
     ChangedFile.additions := Some 0%Z; ChangedFile.deletions := Some 0%Z |}.

Definition edited : ChangedFile.t :=
  {| ChangedFile.filename := "src/auth/login.js";
     ChangedFile.status := Some "modified";
     ChangedFile.additions := Some 5%Z; ChangedFile.deletions := Some 3%Z |}.

Definition first_commit : Commit.t :=
  {| Commit.sha := "a1b2c3d"; Commit.message := "Add login form";
     Commit.author := "ana"; Commit.date := "2024-01-05";
     Commit.evolution_summary := "Introduces the sign-in form.";
     Commit.total_additions := Some 10%Z; Commit.total_deletions := None;
     Commit.files_changed := None |}.

Definition second_commit : Commit.t :=
  {| Commit.sha := "e4f5a6b"; Commit.message := "Move session helper";
     Commit.author := "ben"; Commit.date := "2024-02-11";
     Commit.evolution_summary := "Moves the session helper next to login.";
     Commit.total_additions := Some 5%Z; Commit.total_deletions := Some 3%Z;
     Commit.files_changed := Some [edited; moved] |}.

(** The scenario of the specification: C1 touches [a.js] on day 1, C2
    touches [b.js] on day 2, C3 touches both on day 3; the feature's file
    set is [a.js].  The hosting API lists the commits newest first. *)
Definition touch (p : string) : Pipeline.changed_file :=
  {| Pipeline.path := p; Pipeline.status := Pipeline.modified;
     Pipeline.additions := 1; Pipeline.deletions := 0 |}.

Definition C1 : Pipeline.commit :=
  {| Pipeline.identifier := "c1"; Pipeline.author := "ana"; Pipeline.timestamp := 1;
     Pipeline.message := "one"; Pipeline.changes := [touch "a.js"] |}.

Definition C2 : Pipeline.commit :=
  {| Pipeline.identifier := "c2"; Pipeline.author := "ben"; Pipeline.timestamp := 2;
     Pipeline.message := "two"; Pipeline.changes := [touch "b.js"] |}.

Definition C3 : Pipeline.commit :=
  {| Pipeline.identifier := "c3"; Pipeline.author := "ana"; Pipeline.timestamp := 3;
     Pipeline.message := "three"; Pipeline.changes := [touch "a.js"; touch "b.js"] |}.

Definition listed : list Pipeline.commit := [C3; C2; C1].

Definition a_js : Feature.t :=
  {| Feature.id := "f3"; Feature.name := "A"; Feature.description := EmptyString;
     Feature.files := ["a.js"] |}.

(** The summary for C3 (index 1) finishes first; the one for C1 fails. *)
Definition finished : list (nat * option string) :=
  [(1, Some "Extends A."); (0, None)].

(** A feature whose id is the name of a member that every object
    inherits. *)
Definition builder : Feature.t :=
  {| Feature.id := "constructor"; Feature.name := "Builder";
     Feature.description := "Query builder";
     Feature.files := ["src/query/builder.js"] |}.

(** [login] selected on the timeline tab and its versions stored. *)
Definition timeline_stored : list Runtime.event :=
  analysed ++ [Runtime.SelectFeature login; Runtime.Settle 0 (ok_reply octo_timeline)].

(** The card of [login] clicked twice before the first reply; the first
    reply brings the versions. *)
Definition double_click : list Runtime.event :=
  analysed
  ++ [Runtime.SelectFeature login; Runtime.SelectFeature login;
      Runtime.Settle 0 (ok_reply octo_timeline)].

(** ... and the reply to the second click is a 500. *)
Definition duplicate_fails : list Runtime.event :=
  double_click ++ [Runtime.Settle 0 (error_reply 500 None)].

(** ... or a 200 whose body has no [versions], after which the card is
    clicked once more. *)
Definition duplicate_without_list : list Runtime.event :=
  double_click ++ [Runtime.Settle 0 (ok_reply octo); Runtime.SelectFeature login].

(** A timeline request for [login] is outstanding when [acme/site] is
    analysed, and its reply lands before the analysis does. *)
Definition stale_landed : list Runtime.event :=
  analysed
  ++ [Runtime.SelectFeature login;
      Runtime.Analyze acme_url;
      Runtime.Settle 0 (ok_reply octo_timeline)].

(** With the versions of [login] stored and nothing outstanding, the user
    looks at the other tab, comes back and clicks the card again. *)
Definition revisited : list Runtime.event :=
  [Runtime.TabSwitch App.evolution;
   Runtime.Settle 0 (error_reply 502 None);
   Runtime.TabSwitch App.timeline;
   Runtime.SelectFeature login].

(** The versions of [login] stored, and its evolution requested. *)
Definition evolution_pending : list Runtime.event :=
  timeline_stored ++ [Runtime.TabSwitch App.evolution].

End Sample.


(** * Properties *)

(** ** RepoInput: what reaches [onAnalyze] *)

Module RepoInputFacts.
Import RepoInput.

Lemma trimStart_split (s : text) :
  exists pre, s = pre ++ trimStart s /\ blank pre.
Proof.
  induction s as [|c r [pre [Hr Hpre]]]; simpl.
  - exists []. split; [reflexivity | constructor].
  - destruct (isWhiteSpace c) eqn:Hc.
    + exists (c :: pre). split.
      * simpl. congruence.
      * constructor; assumption.
    + exists []. split; [reflexivity | constructor].
Qed.

Lemma trimStart_head (s : text) (c : N) :
  head (trimStart s) = Some c -> isWhiteSpace c = false.
Proof.
  induction s as [|d r IH]; simpl; [discriminate|].
  destruct (isWhiteSpace d) eqn:Hd; [exact IH|].
  simpl. intros [= <-]. exact Hd.
Qed.

Lemma trimEnd_split (s : text) :
  exists post, s = trimEnd s ++ post /\ blank post.
Proof.
  induction s as [|c r [post [Hr Hpost]]]; simpl.
  - exists []. split; [reflexivity | constructor].
  - destruct (trimEnd r) as [|x r'] eqn:Hte.
    + simpl in Hr. subst post.
      destruct (isWhiteSpace c) eqn:Hc.
      * exists (c :: r). split; [reflexivity | constructor; assumption].
      * exists r. split; [reflexivity | assumption].
    + exists post. split; [|assumption].
      simpl. rewrite Hr at 1. reflexivity.
Qed.

Lemma trimEnd_last (s : text) (c : N) :
  last (trimEnd s) = Some c -> isWhiteSpace c = false.
Proof.
  induction s as [|d r IH]; simpl; [discriminate|].
  destruct (trimEnd r) as [|x r'] eqn:Hte.
  - destruct (isWhiteSpace d) eqn:Hd; simpl; [discriminate|].
    intros [= <-]. exact Hd.
  - intros H. apply IH. exact H.
Qed.

Lemma trimEnd_head (s : text) (c : N) :
  head (trimEnd s) = Some c -> head s = Some c.
Proof.
  destruct s as [|d r]; simpl; [discriminate|].
  destruct (trimEnd r); [destruct (isWhiteSpace d)|]; simpl; congruence.
Qed.

Lemma trimStart_blank (s : text) : blank s -> trimStart s = [].
Proof.
  induction 1 as [|c r Hc _ IH]; simpl; [reflexivity|].
  rewrite Hc. exact IH.
Qed.

Lemma trim_blank (s : text) : blank s -> trim s = [].
Proof. intros H. unfold trim. rewrite (trimStart_blank s H). reflexivity. Qed.

Lemma blank_app (s1 s2 : text) : blank s1 -> blank s2 -> blank (s1 ++ s2).
Proof. intros H1 H2. apply Forall_app. split; assumption. Qed.

(** The shape of [trim s]: [s] is white space, then [trim s], then white
    space, and [trim s] neither starts nor ends with white space. *)
Lemma trim_shape (s : text) :
  exists pre post,
    s = pre ++ trim s ++ post /\ blank pre /\ blank post
    /\ (forall c, head (trim s) = Some c -> isWhiteSpace c = false)
    /\ (forall c, last (trim s) = Some c -> isWhiteSpace c = false).
Proof.
  destruct (trimStart_split s) as [pre [Hs Hpre]].
  destruct (trimEnd_split (trimStart s)) as [post [Ht Hpost]].
  exists pre, post. unfold trim. repeat split; try assumption.
  - rewrite <- Ht. exact Hs.
  - intros c Hc. apply (trimStart_head s). apply trimEnd_head. exact Hc.
  - intros c Hc. apply (trimEnd_last (trimStart s)). exact Hc.
Qed.

Lemma trim_nil_blank (s : text) : trim s = [] -> blank s.
Proof.
  intros H. destruct (trim_shape s) as [pre [post [Hs [Hpre [Hpost _]]]]].
  rewrite H in Hs. simpl in Hs. rewrite Hs. apply blank_app; assumption.
Qed.

Lemma not_blank_has_char (s : text) :
  ~ blank s -> exists c, c ∈ s /\ isWhiteSpace c = false.
Proof.
  intros H. apply not_Forall_Exists in H; [|intros c; apply _].
  apply Exists_exists in H. destruct H as [c [Hin Hc]].
  exists c. split; [exact Hin|]. simpl in Hc.
  destruct (isWhiteSpace c); [exfalso; apply Hc; reflexivity | reflexivity].
Qed.

Lemma handleSubmit_cases (url : text) :
  (blank url /\ handleSubmit url = None)
  \/ (~ blank url /\ handleSubmit url = Some (trim url)).
Proof.
  unfold handleSubmit. destruct (trim url) as [|c r] eqn:Ht; simpl.
  - left. split; [apply trim_nil_blank; exact Ht | reflexivity].
  - right. split; [|reflexivity].
    intros Hb. rewrite (trim_blank url Hb) in Ht. discriminate.
Qed.

Lemma dispatch_calls (loading : bool) (url : text) (a : action) (v : text) :
  (dispatch loading url a).2 = Some v ->
  loading = false /\ handleSubmit url = Some v.
Proof.
  unfold dispatch, button_disabled, input_disabled.
  destruct a as [value| |]; destruct loading; simpl;
    try discriminate.
  - destruct (truthy (trim url)); simpl; [tauto | discriminate].
  - destruct (truthy (trim url)); simpl; [tauto | discriminate].
Qed.

(** C9. RepoInput calls [onAnalyze] only for an input with at least one
    character that is not white space, and then with the input trimmed at
    both ends; for an empty or all-white-space input, and while [loading]
    is true, the submit button is disabled and no user action on the form
    calls [onAnalyze]. *)
Theorem RepoInput_onAnalyze (loading : bool) (url : text) :
  (forall a v, (dispatch loading url a).2 = Some v ->
     (exists c, c ∈ url /\ isWhiteSpace c = false)
     /\ v = trim url
     /\ exists pre post,
          url = pre ++ v ++ post /\ blank pre /\ blank post
          /\ (forall c, head v = Some c -> isWhiteSpace c = false)
          /\ (forall c, last v = Some c -> isWhiteSpace c = false))
  /\ (forall v, handleSubmit url = Some v ->
        (exists c, c ∈ url /\ isWhiteSpace c = false) /\ v = trim url)
  /\ (blank url ->
        handleSubmit url = None
        /\ button_disabled loading url = true
        /\ forall a, (dispatch loading url a).2 = None)
  /\ (loading = true ->
        button_disabled loading url = true
        /\ input_disabled loading = true
        /\ forall a, (dispatch loading url a).2 = None)
  /\ (loading = false -> ~ blank url ->
        (dispatch loading url ClickAnalyze).2 = Some (trim url)).
Proof.
  assert (Hsub : forall v, handleSubmit url = Some v ->
            (exists c, c ∈ url /\ isWhiteSpace c = false) /\ v = trim url).
  { intros v Hv. destruct (handleSubmit_cases url) as [[_ Hn]|[Hnb Hs]].
    - congruence.
    - split; [apply not_blank_has_char; exact Hnb | congruence]. }
  assert (Hnone : forall l u a, button_disabled l u = true ->
            (dispatch l u a).2 = None).
  { intros l u a Hb. unfold dispatch. rewrite Hb.
    destruct a; [destruct (input_disabled l)| |rewrite orb_true_r]; reflexivity. }
  split; [|split; [exact Hsub|split; [|split]]].
  - intros a v Hd. apply dispatch_calls in Hd. destruct Hd as [_ Hv].
    destruct (Hsub v Hv) as [Hc ->]. split; [exact Hc|]. split; [reflexivity|].
    apply trim_shape.
  - intros Hb.
    assert (Hbtn : button_disabled loading url = true).
    { unfold button_disabled. rewrite (trim_blank url Hb). simpl.
      apply orb_true_r. }
    destruct (handleSubmit_cases url) as [[_ Hn]|[Hnb _]]; [|contradiction].
    split; [exact Hn|]. split; [exact Hbtn|]. intros a. apply Hnone. exact Hbtn.
  - intros ->. split; [reflexivity|]. split; [reflexivity|].
    intros a. apply Hnone. reflexivity.
  - intros -> Hnb. unfold dispatch, button_disabled. simpl.
    destruct (handleSubmit_cases url) as [[Hb _]|[_ Hs]]; [contradiction|].
    unfold handleSubmit in *. destruct (truthy (trim url)); simpl;
      [reflexivity | discriminate].
Qed.

(** The form on ["octo/app "], on three spaces, and while loading. *)
Lemma RepoInput_onAnalyze_witness :
  (~ blank (of_string "octo/app ")
   /\ (dispatch false (of_string "octo/app ") ClickAnalyze).2
      = Some (of_string "octo/app"))
  /\ (blank (of_string "   ")
      /\ handleSubmit (of_string "   ") = None
      /\ button_disabled false (of_string "   ") = true)
  /\ (forall a, (dispatch true (of_string "octo/app") a).2 = None).
Proof.
  assert (Hnb : ~ blank (of_string "octo/app ")).
  { intros Hb. inversion Hb as [|c r Hc _]. discriminate Hc. }
  assert (Hb : blank (of_string "   ")) by (repeat constructor).
  split; [|split].
  - split; [exact Hnb|].
    exact (proj2 (proj2 (proj2 (proj2
             (RepoInput_onAnalyze false (of_string "octo/app ")))))
             eq_refl Hnb).
  - split; [exact Hb|].
    destruct (proj1 (proj2 (proj2 (RepoInput_onAnalyze false (of_string "   ")))) Hb)
      as (Hs & Hd & _).
    split; [exact Hs | exact Hd].
  - exact (proj2 (proj2 (proj1 (proj2 (proj2 (proj2
             (RepoInput_onAnalyze true (of_string "octo/app"))))) eq_refl))).
Defined.

End RepoInputFacts.

(** ** FeatureCard: the file badges *)

Module FeatureCardFacts.
Import FeatureCard.

Lemma no_slash_empty : no_slash EmptyString.
Proof. intros []. Qed.

Lemma no_slash_cons (c : ascii) (s : string) :
  Ascii.eqb c "/" = false -> no_slash s -> no_slash (String c s).
Proof.
  intros Hc Hs [Heq|Hin].
  - subst c. discriminate.
  - exact (Hs Hin).
Qed.

(** The invariant of [split_slash]: a first segment without a slash, and
    either nothing more, or a last segment that ends the path after a
    slash. *)
Lemma split_slash_shape (f : string) :
  exists seg segs,
    split_slash f = seg :: segs /\ no_slash seg
    /\ match last segs with
       | None => f = seg
       | Some b => no_slash b /\ exists dir, f = dir +:+ "/" +:+ b
       end.
Proof.
  induction f as [|c r (seg & segs & Hsplit & Hseg & Hlast)]; simpl.
  - exists EmptyString, []. repeat split. apply no_slash_empty.
  - rewrite Hsplit. destruct (Ascii.eqb c "/") eqn:Hc.
    + apply Ascii.eqb_eq in Hc. subst c.
      exists EmptyString, (seg :: segs).
      split; [reflexivity|]. split; [apply no_slash_empty|].
      rewrite last_cons. destruct (last segs) as [b|].
      * destruct Hlast as [Hb [dir ->]]. split; [exact Hb|].
        exists (String "/" dir). reflexivity.
      * subst r. split; [exact Hseg|]. exists EmptyString. reflexivity.
    + exists (String c seg), segs.
      split; [reflexivity|]. split; [apply no_slash_cons; assumption|].
      destruct (last segs) as [b|].
      * destruct Hlast as [Hb [dir ->]]. split; [exact Hb|].
        exists (String c dir). reflexivity.
      * subst r. reflexivity.
Qed.

(** [f.split('/').pop()] is the part of [f] after its last slash. *)
Lemma basename (f : string) :
  exists b, pop (split_slash f) = Some b /\ no_slash b
            /\ (f = b \/ exists dir, f = dir +:+ "/" +:+ b).
Proof.
  destruct (split_slash_shape f) as (seg & segs & Hsplit & Hseg & Hlast).
  unfold pop. rewrite Hsplit, last_cons.
  destruct (last segs) as [b|].
  - destruct Hlast as [Hb Hdir]. exists b. auto.
  - exists seg. auto.
Qed.

Lemma file_names_map (fs : list string) :
  List.filter is_file_name (map file_badge fs) = map file_badge fs.
Proof. induction fs as [|f fs IH]; simpl; [reflexivity | now rewrite IH]. Qed.

(** C10. The files section of a FeatureCard, active or not, shows at most
    five file-name badges: with more than five files, the first five, each
    as the part of the path after its last slash, followed by one
    [+k more] badge with [k] the number of files minus five; with one to
    five files, all of them and no extra badge; with no file, the card has
    no files section. *)
Theorem FeatureCard_file_badges (feature : Feature.t) (active : bool) :
  let files := Feature.files feature in
  let n := length files in
  let card := FeatureCard feature active in
  (n = 0 -> v_files card = None)
  /\ (0 < n <= 5 -> v_files card = Some (map file_badge files))
  /\ (5 < n ->
        v_files card
        = Some (map file_badge (take 5 files) ++ [More (Z.of_nat (n - 5))])
        /\ badge_text (More (Z.of_nat (n - 5)))
           = "+" +:+ pretty (Z.of_nat (n - 5)) +:+ " more")
  /\ (forall bs, v_files card = Some bs ->
        length (List.filter is_file_name bs) = Nat.min n 5
        /\ length (List.filter is_file_name bs) <= 5)
  /\ (forall f, exists b,
        file_badge f = FileName f (Some b)
        /\ badge_text (file_badge f) = b
        /\ no_slash b
        /\ (f = b \/ exists dir, f = dir +:+ "/" +:+ b)).
Proof.
  intros files n card. subst card.
  change (v_files (FeatureCard feature active)) with (files_section feature).
  unfold files_section, slice0. fold files. fold n.
  split; [|split; [|split; [|split]]].
  - intros Hn. rewrite Hn. reflexivity.
  - intros [H0 H5].
    destruct (Z.ltb_spec 0 (Z.of_nat n)); [|lia].
    destruct (Z.ltb_spec 5 (Z.of_nat n)); [lia|].
    rewrite take_ge by (fold n; lia). rewrite app_nil_r. reflexivity.
  - intros H5.
    destruct (Z.ltb_spec 0 (Z.of_nat n)); [|lia].
    destruct (Z.ltb_spec 5 (Z.of_nat n)); [|lia].
    split; [|reflexivity].
    replace (Z.of_nat n - 5)%Z with (Z.of_nat (n - 5)) by lia. reflexivity.
  - intros bs.
    destruct (Z.ltb_spec 0 (Z.of_nat n)); [|discriminate].
    intros [= <-]. rewrite List.filter_app, file_names_map.
    assert (Hlen : length (List.filter is_file_name
                     (if (5 <? Z.of_nat n)%Z then [More (Z.of_nat n - 5)] else [])) = 0).
    { destruct (5 <? Z.of_nat n)%Z; reflexivity. }
    rewrite length_app, Hlen, length_map, length_take. fold n. lia.
  - intros f. destruct (basename f) as (b & Hpop & Hb & Hf).
    exists b. unfold file_badge. rewrite Hpop. simpl. auto.
Qed.

(** The card of [editor], which has seven files: five names and
    [+2 more]. *)
Lemma FeatureCard_file_badges_witness :
  5 < length (Feature.files Sample.editor)
  /\ v_files (FeatureCard Sample.editor true)
     = Some [FileName "src/editor/index.js" (Some "index.js");
             FileName "src/editor/toolbar.js" (Some "toolbar.js");
             FileName "src/editor/keys.js" (Some "keys.js");
             FileName "README.md" (Some "README.md");
             FileName "src/editor/undo.js" (Some "undo.js");
             More 2]
  /\ badge_text (More 2) = "+2 more".
Proof.
  assert (H5 : 5 < length (Feature.files Sample.editor)) by (simpl; lia).
  split; [exact H5|].
  exact (proj1 (proj2 (proj2 (FeatureCard_file_badges Sample.editor true))) H5).
Defined.

End FeatureCardFacts.

(** ** CommitEvolution: totals, file rows, order of the rows *)

Module CommitEvolutionFacts.
Import CommitEvolution.

Lemma or_zero_default (x : JS.maybe Z) : JS.or_zero x = default 0%Z x.
Proof.
  destruct x as [n|]; simpl; [|reflexivity].
  destruct (Z.eqb_spec n 0); congruence.
Qed.

Lemma reduce_from (field : Commit.t -> JS.maybe Z) (ev : list Commit.t) (acc : Z) :
  fold_left (fun s c => (s + JS.or_zero (field c))%Z) ev acc
  = (acc + total field ev)%Z.
Proof.
  revert acc. induction ev as [|c ev IH]; intros acc; simpl.
  - lia.
  - rewrite IH, or_zero_default. lia.
Qed.

Lemma sum_field_total (field : Commit.t -> JS.maybe Z) (ev : list Commit.t) :
  sum_field field ev = total field ev.
Proof. unfold sum_field. rewrite reduce_from. lia. Qed.

(** C2. For a non-empty evolution list the panel shows the length of the
    list as the commit count, and as total additions and total deletions
    the sums of [total_additions] and of [total_deletions] over all
    entries, a missing field counting as 0. *)
Theorem CommitEvolution_totals (feature : Feature.t) (ev : list Commit.t)
    (opened : nat -> bool) :
  ev <> [] ->
  exists plural rows,
    CommitEvolution feature (Some ev) false opened
    = Panel (Feature.name feature) (length ev) plural
            (total Commit.total_additions ev)
            (total Commit.total_deletions ev)
            rows.
Proof.
  intros Hne. destruct ev as [|c ev]; [contradiction|].
  unfold CommitEvolution. rewrite !sum_field_total.
  eexists _, _. reflexivity.
Qed.

(** Two entries, one without [total_deletions]: 2 commits, +15, -3. *)
Lemma CommitEvolution_totals_witness :
  [Sample.first_commit; Sample.second_commit] <> []
  /\ exists plural rows,
       CommitEvolution Sample.login
         (Some [Sample.first_commit; Sample.second_commit]) false (fun _ => false)
       = Panel "Login" 2 plural 15 3 rows.
Proof.
  assert (Hne : [Sample.first_commit; Sample.second_commit] <> []) by discriminate.
  split; [exact Hne|].
  exact (CommitEvolution_totals Sample.login
           [Sample.first_commit; Sample.second_commit] (fun _ => false) Hne).
Defined.

Lemma CommitEvolution_rows (feature : Feature.t) (ev : list Commit.t)
    (opened : nat -> bool) :
  panel_rows (CommitEvolution feature (Some ev) false opened)
  = imap (fun i c => (Commit.sha c +:+ pretty i, CommitRow c (opened i))) ev.
Proof. destruct ev; reflexivity. Qed.

(** The file rows of an expanded commit row. *)
Lemma CommitRow_file_rows (commit : Commit.t) (files : list ChangedFile.t) :
  Commit.files_changed commit = Some files ->
  files <> [] ->
  exists d fl,
    cr_detail (CommitRow commit true) = Some d
    /\ d_files d = Some fl
    /\ fl_count fl = length files
    /\ fl_rows fl = imap (fun i f => (i, FileStat f)) files.
Proof.
  intros Hf Hne. destruct files as [|f fs]; [contradiction|].
  unfold CommitRow. rewrite Hf. simpl. eexists _, _.
  split; [reflexivity|]. simpl. split; [reflexivity|]. split; reflexivity.
Qed.

(** C5. A file with zero additions and zero deletions is rendered as a
    row whose only stat badge is the explicit [0]; a file with positive
    additions or deletions shows those counts and no [0] badge; and an
    expanded commit row has one file row per change record, in order, so
    no file is dropped. *)
Theorem FileStat_zero_is_shown (file : ChangedFile.t) :
  (ChangedFile.additions file = Some 0%Z ->
   ChangedFile.deletions file = Some 0%Z ->
   fr_stats (FileStat file) = [StatNone]
   /\ fr_filename (FileStat file) = ChangedFile.filename file)
  /\ (forall a d,
        ChangedFile.additions file = Some a ->
        ChangedFile.deletions file = Some d ->
        (0 <= a)%Z -> (0 <= d)%Z -> ((0 < a)%Z \/ (0 < d)%Z) ->
        (StatNone ∉ fr_stats (FileStat file))
        /\ ((0 < a)%Z -> StatAdd a ∈ fr_stats (FileStat file))
        /\ ((0 < d)%Z -> StatDel d ∈ fr_stats (FileStat file))
        /\ fr_stats (FileStat file) <> [])
  /\ (forall commit files i,
        Commit.files_changed commit = Some files ->
        files !! i = Some file ->
        exists d fl,
          cr_detail (CommitRow commit true) = Some d
          /\ d_files d = Some fl
          /\ length (fl_rows fl) = length files
          /\ fl_rows fl !! i = Some (i, FileStat file)).
Proof.
  split; [|split].
  - intros Ha Hd. unfold FileStat. simpl. rewrite Ha, Hd. split; reflexivity.
  - intros a d Ha Hd Ha0 Hd0 Hpos. unfold FileStat. simpl. rewrite Ha, Hd.
    simpl. unfold when.
    destruct (Z.ltb_spec 0 a), (Z.ltb_spec 0 d),
             (Z.eqb_spec a 0), (Z.eqb_spec d 0); simpl; try lia;
      (split; [intros Hin; repeat (apply elem_of_cons in Hin as [Hin|Hin];
                 [discriminate|]); inversion Hin|]);
      (split; [intros; try lia; repeat constructor|]);
      (split; [intros; try lia; repeat constructor|]);
      discriminate.
  - intros commit files i Hf Hi.
    assert (Hne : files <> []) by (intros ->; discriminate).
    destruct (CommitRow_file_rows commit files Hf Hne) as (d & fl & Hd & Hfl & _ & Hrows).
    exists d, fl. split; [exact Hd|]. split; [exact Hfl|].
    rewrite Hrows. split; [apply length_imap|].
    rewrite list_lookup_imap, Hi. reflexivity.
Qed.

(** The renamed file of the second sample commit keeps its row and shows [0]. *)
Lemma FileStat_zero_is_shown_witness :
  (ChangedFile.additions Sample.moved = Some 0%Z
   /\ ChangedFile.deletions Sample.moved = Some 0%Z
   /\ fr_stats (FileStat Sample.moved) = [StatNone])
  /\ (exists d fl,
        cr_detail (CommitRow Sample.second_commit true) = Some d
        /\ d_files d = Some fl
        /\ length (fl_rows fl) = 2
        /\ fl_rows fl !! 1 = Some (1, FileStat Sample.moved)).
Proof.
  split.
  - split; [reflexivity|]. split; [reflexivity|].
    exact (proj1 (proj1 (FileStat_zero_is_shown Sample.moved) eq_refl eq_refl)).
  - exact (proj2 (proj2 (FileStat_zero_is_shown Sample.moved))
             Sample.second_commit [Sample.edited; Sample.moved] 1 eq_refl eq_refl).
Defined.

End CommitEvolutionFacts.

(** ** App: the caches of versions and evolutions *)

Module AppFacts.
Import App Runtime.

Lemma get_insert {A : Type} (m : gmap string (JS.maybe A)) (k : string) (v : JS.maybe A) :
  get (<[k := v]> m) k = v.
Proof. unfold get. rewrite lookup_insert_eq. reflexivity. Qed.

Lemma get_insert_ne {A : Type} (m : gmap string (JS.maybe A)) (k k' : string)
    (v : JS.maybe A) :
  k <> k' -> get (<[k := v]> m) k' = get m k'.
Proof. intros Hne. unfold get. rewrite lookup_insert_ne by exact Hne. reflexivity. Qed.

Lemma get_empty {A : Type} (k : string) : get (∅ : gmap string (JS.maybe A)) k = None.
Proof. unfold get. rewrite lookup_empty. reflexivity. Qed.

(** How [read] and [holds] relate to the own property. *)
Lemma get_Some_own {A : Type} (m : gmap string (JS.maybe (list A))) (k : string)
    (l : list A) :
  get m k = Some l <-> m !! k = Some (Some l).
Proof.
  unfold get. destruct (m !! k) as [[x|]|]; simpl; split; intros H;
    first [discriminate H | injection H as ->; reflexivity].
Qed.

Lemma holds_stored {A : Type} (m : gmap string (JS.maybe (list A))) (k : string)
    (l : list A) :
  get m k = Some l -> holds m k = true.
Proof.
  intros H. apply get_Some_own in H. unfold holds, read, JS.maybe in *.
  rewrite H. reflexivity.
Qed.

Lemma read_stored {A : Type} (m : gmap string (JS.maybe (list A))) (k : string)
    (l : list A) :
  get m k = Some l -> read m k = JS.Own (Some l).
Proof.
  intros H. apply get_Some_own in H. unfold read, JS.maybe in *.
  rewrite H. reflexivity.
Qed.

Lemma holds_plain {A : Type} (m : gmap string (JS.maybe (list A))) (k : string) :
  JS.inherited k = None -> holds m k = JS.truthy_arr (get m k).
Proof.
  intros Hk. unfold holds, read, get. destruct (m !! k) as [v|]; simpl.
  - reflexivity.
  - rewrite Hk. reflexivity.
Qed.

Lemma holds_inherited {A : Type} (m : gmap string (JS.maybe (list A))) (k : string)
    (length : option nat) :
  JS.inherited k = Some length -> m !! k = None -> holds m k = true.
Proof.
  intros Hk Hm. unfold holds, read, JS.maybe in *. rewrite Hm, Hk. reflexivity.
Qed.

Lemma fetchTimeline_hit (s : state) (f : Feature.t) (vs : list Version.t) :
  get (versions s) (Feature.id f) = Some vs -> fetchTimeline_start s f = (s, []).
Proof.
  intros H. unfold fetchTimeline_start. rewrite (holds_stored _ _ _ H). reflexivity.
Qed.

Lemma fetchEvolution_hit (s : state) (f : Feature.t) (ev : list Commit.t) :
  get (evolutions s) (Feature.id f) = Some ev -> fetchEvolution_start s f = (s, []).
Proof.
  intros H. unfold fetchEvolution_start. rewrite (holds_stored _ _ _ H). reflexivity.
Qed.

(** What a settled feature request leaves in the cache. *)
Lemma fetchTimeline_settle_get (s : state) (f : Feature.t) (r : JS.settled Api.body) :
  get (versions (fetchTimeline_settle s f r)) (Feature.id f)
  = match r with
    | JS.Resolved data => Api.versions data
    | JS.Rejected _ => Some []
    end.
Proof. destruct r; simpl; apply get_insert. Qed.

Lemma fetchEvolution_settle_get (s : state) (f : Feature.t) (r : JS.settled Api.body) :
  get (evolutions (fetchEvolution_settle s f r)) (Feature.id f)
  = match r with
    | JS.Resolved data => Api.evolution data
    | JS.Rejected _ => Some []
    end.
Proof. destruct r; simpl; apply get_insert. Qed.

(** While a list, empty or not, is stored for a feature id, a request
    for that id returns early: no request is sent, the state is left as it
    is, and the panel shows the stored list.  This holds for
    [fetchTimeline] and [fetchEvolution], called directly or through
    [handleSelectFeature] and [handleTabSwitch], and in particular after a
    request for that id has settled with a list or with a rejection. *)
Theorem stored_list_is_reused (s : state) (f : Feature.t) (opened : nat -> bool) :
  (forall vs, get (versions s) (Feature.id f) = Some vs ->
     fetchTimeline_start s f = (s, [])
     /\ (activeTab s = timeline ->
         handleSelectFeature s f = (setActiveFeature (Some f) s, []))
     /\ (activeFeature s = Some f ->
         handleTabSwitch s timeline = (setActiveTab timeline s, []))
     /\ VersionTimeline.VersionTimeline f (get (versions s) (Feature.id f))
          (timelineLoading s && negb (JS.truthy_arr (get (versions s) (Feature.id f))))
        = VersionTimeline.VersionTimeline f (Some vs) false)
  /\ (forall ev, get (evolutions s) (Feature.id f) = Some ev ->
     fetchEvolution_start s f = (s, [])
     /\ (activeTab s = evolution ->
         handleSelectFeature s f = (setActiveFeature (Some f) s, []))
     /\ (activeFeature s = Some f ->
         handleTabSwitch s evolution = (setActiveTab evolution s, []))
     /\ CommitEvolution.CommitEvolution f (get (evolutions s) (Feature.id f))
          (evolutionLoading s && negb (JS.truthy_arr (get (evolutions s) (Feature.id f))))
          opened
        = CommitEvolution.CommitEvolution f (Some ev) false opened)
  /\ (forall r,
        (forall data, r = JS.Resolved data -> Api.versions data <> None) ->
        fetchTimeline_start (fetchTimeline_settle s f r) f
        = (fetchTimeline_settle s f r, []))
  /\ (forall r,
        (forall data, r = JS.Resolved data -> Api.evolution data <> None) ->
        fetchEvolution_start (fetchEvolution_settle s f r) f
        = (fetchEvolution_settle s f r, [])).
Proof.
  split; [|split; [|split]].
  - intros vs H. split; [exact (fetchTimeline_hit s f vs H)|].
    split; [|split].
    + intros Htab. unfold handleSelectFeature. rewrite Htab.
      apply (fetchTimeline_hit _ f vs). destruct s; exact H.
    + intros Hact. unfold handleTabSwitch. rewrite Hact.
      apply (fetchTimeline_hit _ f vs). destruct s; exact H.
    + rewrite H. simpl. rewrite andb_false_r. reflexivity.
  - intros ev H. split; [exact (fetchEvolution_hit s f ev H)|].
    split; [|split].
    + intros Htab. unfold handleSelectFeature. rewrite Htab.
      apply (fetchEvolution_hit _ f ev). destruct s; exact H.
    + intros Hact. unfold handleTabSwitch. rewrite Hact.
      apply (fetchEvolution_hit _ f ev). destruct s; exact H.
    + rewrite H. simpl. rewrite andb_false_r. reflexivity.
  - intros r Hr.
    pose proof (fetchTimeline_settle_get s f r) as Hget.
    destruct r as [data|m].
    + destruct (Api.versions data) as [vs|] eqn:Hv.
      * exact (fetchTimeline_hit _ f vs Hget).
      * exfalso. apply (Hr data); [reflexivity | exact Hv].
    + exact (fetchTimeline_hit _ f [] Hget).
  - intros r Hr.
    pose proof (fetchEvolution_settle_get s f r) as Hget.
    destruct r as [data|m].
    + destruct (Api.evolution data) as [ev|] eqn:Hv.
      * exact (fetchEvolution_hit _ f ev Hget).
      * exfalso. apply (Hr data); [reflexivity | exact Hv].
    + exact (fetchEvolution_hit _ f [] Hget).
Qed.

(** After the failed request an empty list is stored for [f1], and the next
    request for [login] returns early. *)
Lemma stored_list_is_reused_witness :
  get (evolutions (ui (run boot Sample.evolution_failed))) "f1" = Some []
  /\ fetchEvolution_start (ui (run boot Sample.evolution_failed)) Sample.login
     = (ui (run boot Sample.evolution_failed), []).
Proof.
  assert (H : get (evolutions (ui (run boot Sample.evolution_failed)))
                  (Feature.id Sample.login) = Some []) by (vm_compute; reflexivity).
  split; [exact H|].
  exact (proj1 (proj1 (proj2 (stored_list_is_reused
           (ui (run boot Sample.evolution_failed)) Sample.login (fun _ => false)))
           [] H)).
Defined.


(** *** A feature request that fails *)

Lemma receive_cases (reply : Api.fetched) :
  (exists data, Api.receive reply = JS.Resolved data)
  \/ (exists m, Api.receive reply = JS.Rejected m).
Proof. destruct (Api.receive reply) as [data|m]; eauto. Qed.

(** C1, as the code has it. A feature-evolution or feature-timeline
    request never touches the error banner.  When it resolves, the list
    stored for the feature is the list of the reply, unchanged; when it
    rejects, an empty list is stored for the feature and the panel shows
    the "nothing could be determined" state. *)
Theorem feature_request_outcome (s : state) (f : Feature.t) (reply : Api.fetched)
    (opened : nat -> bool) :
  let s' := fetchEvolution_settle s f (Api.getFeatureEvolution reply) in
  let t' := fetchTimeline_settle s f (Api.getFeatureTimeline reply) in
  error s' = error s /\ error t' = error s
  /\ (forall data, Api.getFeatureEvolution reply = JS.Resolved data ->
        get (evolutions s') (Feature.id f) = Api.evolution data)
  /\ (forall data, Api.getFeatureTimeline reply = JS.Resolved data ->
        get (versions t') (Feature.id f) = Api.versions data)
  /\ (forall m, Api.getFeatureEvolution reply = JS.Rejected m ->
        get (evolutions s') (Feature.id f) = Some []
        /\ CommitEvolution.CommitEvolution f (get (evolutions s') (Feature.id f))
             (evolutionLoading s'
              && negb (JS.truthy_arr (get (evolutions s') (Feature.id f))))
             opened
           = CommitEvolution.NoEvolution (Feature.name f)
               "No commit-level evolution could be determined.")
  /\ (forall m, Api.getFeatureTimeline reply = JS.Rejected m ->
        get (versions t') (Feature.id f) = Some []
        /\ VersionTimeline.VersionTimeline f (get (versions t') (Feature.id f))
             (timelineLoading t'
              && negb (JS.truthy_arr (get (versions t') (Feature.id f))))
           = VersionTimeline.NoHistory (Feature.name f)
               "No version history could be determined for this feature.").
Proof.
  intros s' t'.
  split; [|split; [|split; [|split; [|split]]]].
  - subst s'. destruct (Api.getFeatureEvolution reply); reflexivity.
  - subst t'. destruct (Api.getFeatureTimeline reply); reflexivity.
  - intros data Hr. subst s'. rewrite fetchEvolution_settle_get, Hr. reflexivity.
  - intros data Hr. subst t'. rewrite fetchTimeline_settle_get, Hr. reflexivity.
  - intros m Hr.
    assert (Hget : get (evolutions s') (Feature.id f) = Some []).
    { subst s'. rewrite fetchEvolution_settle_get, Hr. reflexivity. }
    split; [exact Hget|]. rewrite Hget. simpl. rewrite ?andb_false_r. reflexivity.
  - intros m Hr.
    assert (Hget : get (versions t') (Feature.id f) = Some []).
    { subst t'. rewrite fetchTimeline_settle_get, Hr. reflexivity. }
    split; [exact Hget|]. rewrite Hget. simpl. rewrite ?andb_false_r. reflexivity.
Qed.

(** The 500 reply to the evolution request of [login]. *)
Lemma feature_request_outcome_witness :
  Api.getFeatureEvolution (Sample.error_reply 500 (Some "GitHub API rate limit exceeded"))
  = JS.Rejected "GitHub API rate limit exceeded"
  /\ get (evolutions
            (fetchEvolution_settle (ui (run boot Sample.evolution_requested)) Sample.login
               (Api.getFeatureEvolution
                  (Sample.error_reply 500 (Some "GitHub API rate limit exceeded")))))
         "f1" = Some [].
Proof.
  split; [reflexivity|].
  exact (proj1 (proj1 (proj2 (proj2 (proj2 (proj2
           (feature_request_outcome (ui (run boot Sample.evolution_requested))
              Sample.login
              (Sample.error_reply 500 (Some "GitHub API rate limit exceeded"))
              (fun _ => false))))))
           "GitHub API rate limit exceeded" eq_refl)).
Defined.

(** C1, as stated, fails: the evolution request for [login] is answered
    with a 500, [getFeatureEvolution] rejects, and the page shows no error
    but an empty list and "No commit-level evolution could be
    determined." *)
Lemma rejected_evolution_shows_empty_history :
  Runtime.feasible Runtime.boot Sample.evolution_failed = true
  /\ Api.getFeatureEvolution
       (Sample.error_reply 500 (Some "GitHub API rate limit exceeded"))
     = JS.Rejected "GitHub API rate limit exceeded"
  /\ error (Runtime.ui (Runtime.run Runtime.boot Sample.evolution_failed)) = EmptyString
  /\ v_error (render (Runtime.ui (Runtime.run Runtime.boot Sample.evolution_failed))
                     (fun _ => false)) = None
  /\ get (evolutions (Runtime.ui (Runtime.run Runtime.boot Sample.evolution_failed))) "f1"
     = Some []
  /\ r_panel <$> v_results (render (Runtime.ui (Runtime.run Runtime.boot Sample.evolution_failed))
                                   (fun _ => false))
     = Some (Some (EvolutionPanel
                     (CommitEvolution.NoEvolution "Login"
                        "No commit-level evolution could be determined."))).
Proof. vm_compute. repeat split. Qed.

(** *** A failed analysis *)

Lemma truthy_str_nonempty (d : string) : d <> EmptyString -> JS.truthy_str d = true.
Proof. destruct d; [congruence | reflexivity]. Qed.

Lemma handleAnalyze_start_clears (s : state) (url : RepoInput.text) :
  handleAnalyze_start s url
  = ({| loading := true; error := EmptyString; analysis := None; activeFeature := None;
        activeTab := activeTab s; timelineLoading := timelineLoading s;
        evolutionLoading := evolutionLoading s; versions := ∅; evolutions := ∅ |},
     [AwaitAnalyze url]).
Proof. reflexivity. Qed.

(** C7, as the code has it. For a reply that is not ok, [analyzeRepo]
    throws an error whose message is the body's [detail] when that is
    present and not empty, and [Error <status>] otherwise; the message is
    never empty, and [handleAnalyze] shows exactly it as the one error of
    the page, with [analysis] still null.  ([handleAnalyze] shows
    "Something went wrong" for a rejection with an empty message.) *)
Theorem analyze_failure_is_shown (s : state) (url : RepoInput.text)
    (res : Api.response) (opened : nat -> bool) :
  Api.ok res = false ->
  exists message,
    Api.analyzeRepo (Api.Response res) = JS.Rejected message
    /\ (forall b d, Api.json res = inr b -> Api.detail b = Some d -> d <> EmptyString ->
          message = d)
    /\ ((forall b, Api.json res = inr b ->
           Api.detail b = None \/ Api.detail b = Some EmptyString) ->
        message = "Error " +:+ pretty (Api.status res))
    /\ message <> EmptyString
    /\ (let s' := handleAnalyze_settle (handleAnalyze_start s url).1
                    (Api.analyzeRepo (Api.Response res)) in
        error s' = message
        /\ v_error (render s' opened) = Some message
        /\ analysis s' = None
        /\ v_results (render s' opened) = None
        /\ loading s' = false)
    /\ (forall m,
          error (handleAnalyze_settle (handleAnalyze_start s url).1 (JS.Rejected m))
          = if decide (m = EmptyString) then "Something went wrong" else m).
Proof.
  intros Hok.
  assert (Hgen : forall m,
            error (handleAnalyze_settle (handleAnalyze_start s url).1 (JS.Rejected m))
            = if decide (m = EmptyString) then "Something went wrong" else m).
  { intros m. rewrite handleAnalyze_start_clears. simpl.
    destruct m; reflexivity. }
  assert (Hshow : forall message, message <> EmptyString ->
            let s' := handleAnalyze_settle (handleAnalyze_start s url).1
                        (JS.Rejected message) in
            error s' = message
            /\ v_error (render s' opened) = Some message
            /\ analysis s' = None
            /\ v_results (render s' opened) = None
            /\ loading s' = false).
  { intros message Hne. rewrite handleAnalyze_start_clears.
    destruct message as [|c r]; [congruence|]. simpl. repeat split. }
  unfold Api.analyzeRepo, Api.receive. rewrite Hok. simpl negb. cbv iota.
  set (fallback := "Error " +:+ JS.show_N (Api.status res)).
  assert (Hfb : fallback <> EmptyString) by discriminate.
  destruct (Api.json res) as [m|b] eqn:Hjson; cbv zeta.
  - exists fallback. simpl. split; [reflexivity|].
    split; [intros b d [=]|]. split; [reflexivity|].
    split; [exact Hfb|]. split; [exact (Hshow fallback Hfb) | exact Hgen].
  - destruct (Api.detail b) as [[|c r]|] eqn:Hd; simpl JS.or_str.
    + exists fallback. split; [reflexivity|].
      split; [intros b' d' [= <-] Hd' Hne; congruence|].
      split; [reflexivity|].
      split; [exact Hfb|]. split; [exact (Hshow fallback Hfb) | exact Hgen].
    + exists (String c r). split; [reflexivity|].
      split; [intros b' d' [= <-] Hd' Hne; congruence|].
      split; [intros H; destruct (H b eq_refl); congruence|].
      split; [discriminate|].
      split; [exact (Hshow (String c r) ltac:(discriminate)) | exact Hgen].
    + exists fallback. split; [reflexivity|].
      split; [intros b' d' [= <-] Hd' Hne; congruence|].
      split; [reflexivity|].
      split; [exact Hfb|]. split; [exact (Hshow fallback Hfb) | exact Hgen].
Qed.

(** A 404 whose body carries a [detail]. *)
Lemma analyze_failure_is_shown_witness :
  Api.ok {| Api.ok := false; Api.status := 404;
            Api.json := inr {| Api.detail := Some "Repository not found";
                               Api.repo := EmptyString; Api.features := [];
                               Api.versions := None; Api.evolution := None |} |} = false
  /\ exists message,
       Api.analyzeRepo (Sample.error_reply 404 (Some "Repository not found"))
       = JS.Rejected message
       /\ message = "Repository not found"
       /\ error (handleAnalyze_settle (handleAnalyze_start initial Sample.octo_url).1
                   (Api.analyzeRepo (Sample.error_reply 404 (Some "Repository not found"))))
          = message.
Proof.
  split; [reflexivity|].
  destruct (analyze_failure_is_shown initial Sample.octo_url
              {| Api.ok := false; Api.status := 404;
                 Api.json := inr {| Api.detail := Some "Repository not found";
                                    Api.repo := EmptyString; Api.features := [];
                                    Api.versions := None; Api.evolution := None |} |}
              (fun _ => false) eq_refl)
    as (message & Hr & Hd & _ & _ & (He & _) & _).
  exists message. split; [exact Hr|]. split.
  - apply (Hd _ "Repository not found" eq_refl eq_refl). discriminate.
  - exact He.
Defined.

(** C7, as stated, fails on a body whose [detail] is present but empty:
    the message is [Error 500], not the empty [detail], and the page
    shows [Error 500], not "Something went wrong". *)
Lemma empty_detail_gives_status_message :
  Api.analyzeRepo (Sample.error_reply 500 (Some EmptyString)) = JS.Rejected "Error 500"
  /\ Api.analyzeRepo (Sample.error_reply 500 (Some EmptyString)) <> JS.Rejected EmptyString
  /\ error (handleAnalyze_settle (handleAnalyze_start initial Sample.octo_url).1
              (Api.analyzeRepo (Sample.error_reply 500 (Some EmptyString))))
     = "Error 500"
  /\ error (handleAnalyze_settle (handleAnalyze_start initial Sample.octo_url).1
              (Api.analyzeRepo (Sample.error_reply 500 (Some EmptyString))))
     <> "Something went wrong".
Proof. vm_compute. repeat split; discriminate. Qed.

End AppFacts.

(** ** The page at run time: overlapping requests and the reset *)

Module RuntimeFacts.
Import App Runtime.

(** Expose the cells of a world whose handler has been unfolded. *)
Ltac open_world w :=
  let s := fresh "s" in
  let p := fresh "p" in
  let i := fresh "i" in
  destruct w as [s p i]; destruct s; simpl in *.

Lemma run_cons (w : world) (e : event) (es : list event) :
  run w (e :: es) = run (step w e) es.
Proof. reflexivity. Qed.

Lemma elem_of_one {A : Type} (x y : A) : x ∈ [y] -> x = y.
Proof. intros H. apply elem_of_cons in H as [H|H]; [exact H | inversion H]. Qed.

(** *** Requests made while another one is outstanding *)

Lemma select_misses (w : world) (f : Feature.t) (a : Api.body) :
  analysis (ui w) = Some a ->
  activeTab (ui w) = evolution ->
  get (evolutions (ui w)) (Feature.id f) = None ->
  JS.inherited (Feature.id f) = None ->
  step w (SelectFeature f)
  = {| ui := setEvolutionLoading true (setActiveFeature (Some f) (ui w));
       pending := pending w ++ [AwaitEvolution (Api.repo a) f];
       issued := issued w ++ [Api.getFeatureEvolution_request (Api.repo a) f] |}.
Proof.
  intros Ha Htab Hget Hplain. unfold step, spawn, handleSelectFeature. rewrite Htab.
  unfold fetchEvolution_start. open_world w.
  rewrite (AppFacts.holds_plain _ _ Hplain), Hget, Ha. reflexivity.
Qed.

Lemma switch_misses (w : world) (f : Feature.t) (a : Api.body) :
  analysis (ui w) = Some a ->
  activeFeature (ui w) = Some f ->
  get (evolutions (ui w)) (Feature.id f) = None ->
  JS.inherited (Feature.id f) = None ->
  step w (TabSwitch evolution)
  = {| ui := setEvolutionLoading true (setActiveTab evolution (ui w));
       pending := pending w ++ [AwaitEvolution (Api.repo a) f];
       issued := issued w ++ [Api.getFeatureEvolution_request (Api.repo a) f] |}.
Proof.
  intros Ha Hact Hget Hplain. unfold step, spawn, handleTabSwitch. rewrite Hact.
  unfold fetchEvolution_start. open_world w.
  rewrite (AppFacts.holds_plain _ _ Hplain), Hget, Ha. reflexivity.
Qed.

Lemma count_replicate {A : Type} (p : A -> bool) (x : A) (n : nat) :
  p x = true -> length (List.filter p (replicate n x)) = n.
Proof.
  intros Hp. induction n as [|n IH]; simpl; [reflexivity|].
  rewrite Hp. simpl. congruence.
Qed.

Lemma asks_own_request (repo : string) (f : Feature.t) :
  asks_evolution (Feature.id f) (Api.getFeatureEvolution_request repo f) = true.
Proof. unfold asks_evolution. simpl. apply String.eqb_refl. Qed.

Lemma awaits_own_task (repo : string) (f : Feature.t) :
  awaits_evolution (Feature.id f) (AwaitEvolution repo f) = true.
Proof. simpl. apply String.eqb_refl. Qed.

Lemma repeated_select (n : nat) (w : world) (f : Feature.t) (a : Api.body) :
  analysis (ui w) = Some a ->
  activeTab (ui w) = evolution ->
  get (evolutions (ui w)) (Feature.id f) = None ->
  JS.inherited (Feature.id f) = None ->
  pending (run w (replicate n (SelectFeature f)))
  = pending w ++ replicate n (AwaitEvolution (Api.repo a) f)
  /\ issued (run w (replicate n (SelectFeature f)))
     = issued w ++ replicate n (Api.getFeatureEvolution_request (Api.repo a) f).
Proof.
  revert w. induction n as [|n IH]; intros w Ha Htab Hget Hplain.
  - simpl. rewrite !app_nil_r. split; reflexivity.
  - rewrite replicate_S, run_cons, (select_misses w f a Ha Htab Hget Hplain).
    match goal with |- context [run ?w' _] => destruct (IH w') as [Hp Hi] end.
    + open_world w; exact Ha.
    + open_world w; exact Htab.
    + open_world w; exact Hget.
    + exact Hplain.
    + rewrite Hp, Hi. simpl. rewrite <- !app_assoc. split; reflexivity.
Qed.

(** C6, as the code has it. For a feature whose id names no member that
    every object inherits, a request for its evolution sends
    [getFeatureEvolution] whenever no list is stored for the id at that
    moment, without regard to requests still outstanding: [n] clicks on
    the card before any reply make [n] calls, and a click on the evolution
    tab makes one more.  Only a stored list stops further calls. *)
Theorem overlapping_requests_each_fetch (w : world) (f : Feature.t) (a : Api.body)
    (n : nat) :
  analysis (ui w) = Some a ->
  get (evolutions (ui w)) (Feature.id f) = None ->
  JS.inherited (Feature.id f) = None ->
  (activeTab (ui w) = evolution ->
   let w' := run w (replicate n (SelectFeature f)) in
   pending w' = pending w ++ replicate n (AwaitEvolution (Api.repo a) f)
   /\ inflight_evolution (Feature.id f) w' = inflight_evolution (Feature.id f) w + n
   /\ evolution_requests (Feature.id f) (issued w')
      = evolution_requests (Feature.id f) (issued w) + n)
  /\ (activeFeature (ui w) = Some f ->
      let w' := step w (TabSwitch evolution) in
      inflight_evolution (Feature.id f) w' = inflight_evolution (Feature.id f) w + 1
      /\ evolution_requests (Feature.id f) (issued w')
         = evolution_requests (Feature.id f) (issued w) + 1).
Proof.
  intros Ha Hget Hplain. split.
  - intros Htab w'. subst w'.
    destruct (repeated_select n w f a Ha Htab Hget Hplain) as [Hp Hi].
    split; [exact Hp|]. unfold inflight_evolution, evolution_requests.
    rewrite Hp, Hi, !List.filter_app, !length_app.
    rewrite (count_replicate _ _ n (awaits_own_task (Api.repo a) f)).
    rewrite (count_replicate _ _ n (asks_own_request (Api.repo a) f)).
    split; reflexivity.
  - intros Hact w'. subst w'. rewrite (switch_misses w f a Ha Hact Hget Hplain).
    unfold inflight_evolution, evolution_requests. simpl pending. simpl issued.
    rewrite !List.filter_app, !length_app. simpl List.filter.
    rewrite asks_own_request. rewrite String.eqb_refl. split; reflexivity.
Qed.

(** Three more clicks on [login] while its first request is outstanding. *)
Lemma overlapping_requests_each_fetch_witness :
  analysis (ui (run boot Sample.evolution_requested)) = Some Sample.octo
  /\ get (evolutions (ui (run boot Sample.evolution_requested))) "f1" = None
  /\ JS.inherited "f1" = None
  /\ activeTab (ui (run boot Sample.evolution_requested)) = evolution
  /\ inflight_evolution "f1"
       (run (run boot Sample.evolution_requested) (replicate 3 (SelectFeature Sample.login)))
     = inflight_evolution "f1" (run boot Sample.evolution_requested) + 3.
Proof.
  assert (Ha : analysis (ui (run boot Sample.evolution_requested)) = Some Sample.octo)
    by (vm_compute; reflexivity).
  assert (Hg : get (evolutions (ui (run boot Sample.evolution_requested)))
                   (Feature.id Sample.login) = None) by (vm_compute; reflexivity).
  assert (Ht : activeTab (ui (run boot Sample.evolution_requested)) = evolution)
    by (vm_compute; reflexivity).
  split; [exact Ha|]. split; [exact Hg|]. split; [reflexivity|]. split; [exact Ht|].
  exact (proj1 (proj2 (proj1
           (overlapping_requests_each_fetch (run boot Sample.evolution_requested)
              Sample.login Sample.octo 3 Ha Hg eq_refl) Ht))).
Defined.

(** C6, as stated, fails: with [login] on the evolution tab and its
    request outstanding, a second click on the card sends a second
    [getFeatureEvolution] for the same feature id. *)
Lemma second_click_fetches_again :
  feasible boot Sample.clicked_twice = true
  /\ inflight_evolution "f1" (run boot Sample.evolution_requested) = 1
  /\ get (evolutions (ui (run boot Sample.evolution_requested))) "f1" = None
  /\ inflight_evolution "f1" (run boot Sample.clicked_twice) = 2
  /\ evolution_requests "f1" (issued (run boot Sample.clicked_twice)) = 2.
Proof. vm_compute. repeat split. Qed.


(** *** Starting a new analysis *)

Lemma fetchTimeline_start_frame (s : state) (f : Feature.t) (fid : string) :
  Feature.id f <> fid ->
  get (versions (fetchTimeline_start s f).1) fid = get (versions s) fid
  /\ get (evolutions (fetchTimeline_start s f).1) fid = get (evolutions s) fid
  /\ activeFeature (fetchTimeline_start s f).1 = activeFeature s
  /\ (forall t, t ∈ (fetchTimeline_start s f).2 -> task_feature t = Some (Feature.id f)).
Proof.
  intros Hne. unfold fetchTimeline_start.
  destruct (holds (versions s) (Feature.id f)); simpl.
  - repeat split. intros t Ht. inversion Ht.
  - destruct (analysis s) as [a|]; simpl.
    + repeat split. intros t Ht. apply elem_of_one in Ht. subst t. reflexivity.
    + repeat split.
      * apply AppFacts.get_insert_ne. exact Hne.
      * intros t Ht. inversion Ht.
Qed.

Lemma fetchEvolution_start_frame (s : state) (f : Feature.t) (fid : string) :
  Feature.id f <> fid ->
  get (versions (fetchEvolution_start s f).1) fid = get (versions s) fid
  /\ get (evolutions (fetchEvolution_start s f).1) fid = get (evolutions s) fid
  /\ activeFeature (fetchEvolution_start s f).1 = activeFeature s
  /\ (forall t, t ∈ (fetchEvolution_start s f).2 -> task_feature t = Some (Feature.id f)).
Proof.
  intros Hne. unfold fetchEvolution_start.
  destruct (holds (evolutions s) (Feature.id f)); simpl.
  - repeat split. intros t Ht. inversion Ht.
  - destruct (analysis s) as [a|]; simpl.
    + repeat split. intros t Ht. apply elem_of_one in Ht. subst t. reflexivity.
    + repeat split.
      * apply AppFacts.get_insert_ne. exact Hne.
      * intros t Ht. inversion Ht.
Qed.

(** A handler that starts a fetch for a feature other than [fid] keeps
    the world quiet about [fid]. *)
Lemma quiet_spawn (fid : string) (w : world) (s1 : state) (f : Feature.t)
    (r : state * list task) :
  quiet fid w ->
  Feature.id f <> fid ->
  get (versions s1) fid = get (versions (ui w)) fid ->
  get (evolutions s1) fid = get (evolutions (ui w)) fid ->
  (forall g, activeFeature s1 = Some g -> Feature.id g <> fid) ->
  (get (versions r.1) fid = get (versions s1) fid
   /\ get (evolutions r.1) fid = get (evolutions s1) fid
   /\ activeFeature r.1 = activeFeature s1
   /\ (forall t, t ∈ r.2 -> task_feature t = Some (Feature.id f))) ->
  quiet fid (spawn w r).
Proof.
  intros (Hv & He & Hp & Ha) Hne Hv1 He1 Ha1 (Hv2 & He2 & Ha2 & Ht).
  unfold quiet, spawn. simpl. split; [congruence|]. split; [congruence|].
  split.
  - intros t Hin. apply elem_of_app in Hin as [Hin|Hin].
    + exact (Hp t Hin).
    + rewrite (Ht t Hin). congruence.
  - intros g Hg. apply Ha1. congruence.
Qed.

Lemma quiet_step (fid : string) (w : world) (e : event) :
  quiet fid w ->
  (forall f, e = SelectFeature f -> Feature.id f <> fid) ->
  quiet fid (step w e).
Proof.
  intros Hq Hsel. pose proof Hq as (Hv & He & Hp & Ha).
  destruct e as [url|f|t|i reply]; unfold step.
  - rewrite AppFacts.handleAnalyze_start_clears. unfold quiet, spawn. simpl.
    split; [apply AppFacts.get_empty|]. split; [apply AppFacts.get_empty|].
    split; [|discriminate].
    intros t Hin. apply elem_of_app in Hin as [Hin|Hin].
    + exact (Hp t Hin).
    + apply elem_of_one in Hin. subst t. discriminate.
  - specialize (Hsel f eq_refl). unfold handleSelectFeature.
    destruct (activeTab (ui w)).
    + apply (quiet_spawn fid w (setActiveFeature (Some f) (ui w)) f); auto.
      * intros g [= <-]. exact Hsel.
      * apply fetchTimeline_start_frame. exact Hsel.
    + apply (quiet_spawn fid w (setActiveFeature (Some f) (ui w)) f); auto.
      * intros g [= <-]. exact Hsel.
      * apply fetchEvolution_start_frame. exact Hsel.
  - unfold handleTabSwitch. destruct (activeFeature (ui w)) as [f|] eqn:Hact.
    + assert (Hne : Feature.id f <> fid) by (apply Ha; reflexivity).
      destruct t.
      * apply (quiet_spawn fid w (setActiveTab timeline (ui w)) f); auto.
        -- simpl. intros g Hg. apply Ha. congruence.
        -- apply fetchTimeline_start_frame. exact Hne.
      * apply (quiet_spawn fid w (setActiveTab evolution (ui w)) f); auto.
        -- simpl. intros g Hg. apply Ha. congruence.
        -- apply fetchEvolution_start_frame. exact Hne.
    + unfold quiet, spawn. simpl. rewrite app_nil_r.
      split; [exact Hv|]. split; [exact He|]. split; [exact Hp|].
      intros g Hg. congruence.
  - destruct (pending w !! i) as [t|] eqn:Hi; [|exact Hq].
    assert (Ht : task_feature t <> Some fid).
    { apply Hp. apply (list_elem_of_lookup_2 _ i). exact Hi. }
    unfold quiet. simpl.
    assert (Hframe :
      get (versions (resume (ui w) t reply)) fid = get (versions (ui w)) fid
      /\ get (evolutions (resume (ui w) t reply)) fid = get (evolutions (ui w)) fid
      /\ activeFeature (resume (ui w) t reply) = activeFeature (ui w)).
    { destruct t as [url|repo f|repo f]; simpl.
      - destruct (Api.analyzeRepo reply); repeat split.
      - assert (Hne : Feature.id f <> fid) by (simpl in Ht; congruence).
        destruct (Api.getFeatureTimeline reply); simpl; repeat split;
          apply AppFacts.get_insert_ne; exact Hne.
      - assert (Hne : Feature.id f <> fid) by (simpl in Ht; congruence).
        destruct (Api.getFeatureEvolution reply); simpl; repeat split;
          apply AppFacts.get_insert_ne; exact Hne. }
    destruct Hframe as (Hv' & He' & Ha').
    split; [congruence|]. split; [congruence|]. split.
    + intros t' Hin. apply Hp.
      exact (elem_of_sublist _ _ _ Hin (sublist_delete (pending w) i)).
    + intros g Hg. apply Ha. congruence.
Qed.

Lemma quiet_run (fid : string) (es : list event) (w : world) :
  quiet fid w ->
  (forall f, SelectFeature f ∈ es -> Feature.id f <> fid) ->
  quiet fid (run w es).
Proof.
  revert w. induction es as [|e es IH]; intros w Hq Hsel; [exact Hq|].
  rewrite run_cons. apply IH.
  - apply quiet_step; [exact Hq|]. intros f ->. apply Hsel. left.
  - intros f Hin. apply Hsel. right. exact Hin.
Qed.

(** What [handleAnalyze] does before its request is sent: the previous
    analysis, the active feature and both caches are cleared, the request
    joins those already outstanding, and nothing stored before can be
    read afterwards.  A feature id that no outstanding request refers to
    then stays without an entry until a feature with that id is
    selected. *)
Theorem new_analysis_clears_caches (w : world) (url : RepoInput.text) :
  let w1 := step w (Analyze url) in
  analysis (ui w1) = None
  /\ activeFeature (ui w1) = None
  /\ versions (ui w1) = ∅
  /\ evolutions (ui w1) = ∅
  /\ pending w1 = pending w ++ [AwaitAnalyze url]
  /\ issued w1 = issued w ++ [Api.analyzeRepo_request url]
  /\ (forall fid,
        get (versions (ui w1)) fid = None /\ get (evolutions (ui w1)) fid = None)
  /\ (forall fid es,
        (forall t, t ∈ pending w -> task_feature t <> Some fid) ->
        (forall f, SelectFeature f ∈ es -> Feature.id f <> fid) ->
        get (versions (ui (run w1 es))) fid = None
        /\ get (evolutions (ui (run w1 es))) fid = None).
Proof.
  intros w1. subst w1. unfold step at 1 2 3 4 5 6 7 8.
  rewrite AppFacts.handleAnalyze_start_clears. unfold spawn. simpl.
  repeat (split; [reflexivity|]). split.
  - intros fid. split; apply AppFacts.get_empty.
  - intros fid es Hp Hsel.
    assert (Hq : quiet fid (step w (Analyze url))).
    { unfold step. rewrite AppFacts.handleAnalyze_start_clears.
      unfold quiet, spawn. simpl.
      split; [apply AppFacts.get_empty|]. split; [apply AppFacts.get_empty|].
      split; [|discriminate].
      intros t Hin. apply elem_of_app in Hin as [Hin|Hin].
      - exact (Hp t Hin).
      - apply elem_of_one in Hin. subst t. discriminate. }
    destruct (quiet_run fid es _ Hq Hsel) as (Hv & He & _).
    split; assumption.
Qed.

(** The versions of [login] are stored and its evolution request is
    outstanding when [acme/site] is analysed: both caches are empty
    afterwards, and [f2], which the outstanding request does not refer to,
    stays without an entry while that request and the analysis settle. *)
Lemma new_analysis_clears_caches_witness :
  get (versions (ui (run boot Sample.evolution_pending))) "f1" = Some [Sample.v1]
  /\ pending (run boot Sample.evolution_pending) = [AwaitEvolution "octo/app" Sample.login]
  /\ versions (ui (step (run boot Sample.evolution_pending) (Analyze Sample.acme_url))) = ∅
  /\ get (versions (ui (run (step (run boot Sample.evolution_pending)
                                 (Analyze Sample.acme_url))
                          [Settle 0 (Sample.error_reply 500 None);
                           Settle 0 (Sample.ok_reply Sample.acme)])))
         "f2" = None.
Proof.
  assert (Hp : pending (run boot Sample.evolution_pending)
               = [AwaitEvolution "octo/app" Sample.login]) by (vm_compute; reflexivity).
  split; [vm_compute; reflexivity|]. split; [exact Hp|].
  pose proof (new_analysis_clears_caches (run boot Sample.evolution_pending)
                Sample.acme_url)
    as (_ & _ & Hv & _ & _ & _ & _ & Hq).
  split; [exact Hv|].
  apply (Hq "f2" [Settle 0 (Sample.error_reply 500 None);
                  Settle 0 (Sample.ok_reply Sample.acme)]).
  - intros t Ht. rewrite Hp in Ht. apply elem_of_one in Ht. subst t. discriminate.
  - intros f Hin. apply elem_of_cons in Hin as [Hin|Hin]; [discriminate Hin|].
    apply elem_of_one in Hin. discriminate Hin.
Defined.

(** C8. [handleAnalyze] empties both caches for the new analysis, but the
    reset does not hold: the timeline request for [login] of [octo/app] is
    still outstanding when [acme/site] is analysed; its reply lands in the
    emptied cache under the id [f1], and when the new analysis offers a
    feature with that id the panel shows the old repository's versions
    without any request for the new one. *)
Lemma stale_reply_lands_after_reset :
  feasible boot Sample.reanalysed = true
  /\ (Api.repo <$> analysis (ui (run boot Sample.reanalysed))) = Some "acme/site"
  /\ activeFeature (ui (run boot Sample.reanalysed)) = Some Sample.search
  /\ get (versions (ui (run boot Sample.reanalysed))) "f1" = Some [Sample.v1]
  /\ issued (run boot Sample.reanalysed)
     = [Api.analyzeRepo_request Sample.octo_url;
        Api.getFeatureTimeline_request "octo/app" Sample.login;
        Api.analyzeRepo_request Sample.acme_url]
  /\ r_panel <$> v_results (render (ui (run boot Sample.reanalysed)) (fun _ => false))
     = Some (Some (TimelinePanel
                     (VersionTimeline.Timeline "Search" 1 false [(0, Sample.v1)]))).
Proof. vm_compute. repeat split. Qed.

End RuntimeFacts.

(** ** The caches over a session *)

Module CacheFacts.
Import App Runtime.

Lemma none_counted {A : Type} (p : A -> bool) (l : list A) :
  length (List.filter p l) = 0 <-> Forall (fun x => p x = false) l.
Proof.
  induction l as [|x l IH]; simpl.
  - split; [constructor | reflexivity].
  - destruct (p x) eqn:Hx; simpl.
    + split; [discriminate|]. intros H. inversion H; congruence.
    + rewrite IH. split; [intros H; constructor; assumption|].
      intros H. inversion H; assumption.
Qed.

(** What [fetchTimeline] and [fetchEvolution] leave of a stored versions
    list. *)
Lemma fetchTimeline_start_keeps_versions (s : state) (f : Feature.t)
    (fid : string) (vs : list Version.t) :
  get (versions s) fid = Some vs ->
  get (versions (fetchTimeline_start s f).1) fid = Some vs
  /\ Forall (fun t => awaits_timeline fid t = false) (fetchTimeline_start s f).2
  /\ Forall (fun r => asks_timeline fid r = false)
       (map request_of (fetchTimeline_start s f).2).
Proof.
  intros Hg. destruct (decide (Feature.id f = fid)) as [<-|Hne].
  - rewrite (AppFacts.fetchTimeline_hit s f vs Hg). simpl.
    split; [exact Hg|]. split; constructor.
  - assert (Hb : String.eqb (Feature.id f) fid = false) by (apply String.eqb_neq; exact Hne).
    unfold fetchTimeline_start.
    destruct (holds (versions s) (Feature.id f)); simpl.
    + split; [exact Hg|]. split; constructor.
    + destruct (analysis s) as [a|]; simpl.
      * split; [destruct s; exact Hg|].
        split; repeat constructor; [exact Hb|].
        unfold asks_timeline. simpl. rewrite Hb, ?andb_false_r. reflexivity.
      * split; [|split; constructor].
        destruct s; simpl in *. rewrite AppFacts.get_insert_ne by exact Hne. exact Hg.
Qed.

Lemma fetchEvolution_start_keeps_versions (s : state) (f : Feature.t)
    (fid : string) (vs : list Version.t) :
  get (versions s) fid = Some vs ->
  get (versions (fetchEvolution_start s f).1) fid = Some vs
  /\ Forall (fun t => awaits_timeline fid t = false) (fetchEvolution_start s f).2
  /\ Forall (fun r => asks_timeline fid r = false)
       (map request_of (fetchEvolution_start s f).2).
Proof.
  intros Hg. unfold fetchEvolution_start.
  destruct (holds (evolutions s) (Feature.id f)); simpl.
  - split; [exact Hg|]. split; constructor.
  - destruct (analysis s) as [a|]; simpl.
    + split; [destruct s; exact Hg|]. split; repeat constructor.
    + split; [destruct s; exact Hg|]. split; constructor.
Qed.

(** One event other than a new analysis keeps a stored versions list that
    no outstanding request is about to overwrite, and sends no timeline
    request for its id. *)
Lemma versions_kept_step (fid : string) (vs : list Version.t) (w : world) (e : event) :
  is_analyze e = false ->
  get (versions (ui w)) fid = Some vs ->
  inflight_timeline fid w = 0 ->
  get (versions (ui (step w e))) fid = Some vs
  /\ inflight_timeline fid (step w e) = 0
  /\ timeline_requests fid (issued (step w e)) = timeline_requests fid (issued w).
Proof.
  intros Hna Hg Hp. unfold inflight_timeline, timeline_requests in *.
  apply none_counted in Hp.
  assert (Hspawn : forall r : state * list task,
            get (versions r.1) fid = Some vs
            /\ Forall (fun t => awaits_timeline fid t = false) r.2
            /\ Forall (fun q => asks_timeline fid q = false) (map request_of r.2) ->
            get (versions (ui (spawn w r))) fid = Some vs
            /\ length (List.filter (awaits_timeline fid) (pending (spawn w r))) = 0
            /\ length (List.filter (asks_timeline fid) (issued (spawn w r)))
               = length (List.filter (asks_timeline fid) (issued w))).
  { intros r (H1 & H2 & H3). unfold spawn. simpl. split; [exact H1|]. split.
    - apply none_counted. apply Forall_app. split; assumption.
    - rewrite List.filter_app, length_app.
      apply none_counted in H3. rewrite H3. lia. }
  destruct e as [url|f|t|i reply]; [discriminate Hna| | |]; unfold step.
  - apply Hspawn. unfold handleSelectFeature.
    assert (Hg1 : get (versions (setActiveFeature (Some f) (ui w))) fid = Some vs)
      by (destruct (ui w); exact Hg).
    destruct (activeTab (ui w)).
    + apply fetchTimeline_start_keeps_versions. exact Hg1.
    + apply fetchEvolution_start_keeps_versions. exact Hg1.
  - apply Hspawn. unfold handleTabSwitch.
    assert (Hg1 : get (versions (setActiveTab t (ui w))) fid = Some vs)
      by (destruct (ui w); exact Hg).
    destruct (activeFeature (ui w)) as [f|].
    + destruct t.
      * apply fetchTimeline_start_keeps_versions. exact Hg1.
      * apply fetchEvolution_start_keeps_versions. exact Hg1.
    + simpl. split; [exact Hg1|]. split; constructor.
  - destruct (pending w !! i) as [t|] eqn:Hi.
    2:{ split; [exact Hg|]. split; [apply none_counted; exact Hp | reflexivity]. }
    simpl. split; [|split; [|reflexivity]].
    + assert (Ht : awaits_timeline fid t = false).
      { rewrite Forall_forall in Hp. apply Hp.
        apply (list_elem_of_lookup_2 _ i). exact Hi. }
      destruct t as [url|repo f|repo f]; simpl.
      * destruct (Api.analyzeRepo reply); destruct (ui w); exact Hg.
      * simpl in Ht. apply String.eqb_neq in Ht.
        destruct (Api.getFeatureTimeline reply); destruct (ui w); simpl in *;
          rewrite AppFacts.get_insert_ne by exact Ht; exact Hg.
      * destruct (Api.getFeatureEvolution reply); destruct (ui w); exact Hg.
    + apply none_counted.
      apply Forall_delete. exact Hp.
Qed.

Lemma versions_kept_run (fid : string) (vs : list Version.t) (es : list event) (w : world) :
  Forall (fun e => is_analyze e = false) es ->
  get (versions (ui w)) fid = Some vs ->
  inflight_timeline fid w = 0 ->
  get (versions (ui (run w es))) fid = Some vs
  /\ inflight_timeline fid (run w es) = 0
  /\ timeline_requests fid (issued (run w es)) = timeline_requests fid (issued w).
Proof.
  intros Hes. revert w. induction Hes as [|e es He _ IH]; intros w Hg Hp.
  - repeat split; assumption.
  - rewrite RuntimeFacts.run_cons.
    destruct (versions_kept_step fid vs w e He Hg Hp) as (Hg' & Hp' & Hr').
    destruct (IH _ Hg' Hp') as (Hg2 & Hp2 & Hr2).
    split; [exact Hg2|]. split; [exact Hp2|]. congruence.
Qed.

(** What [fetchTimeline] and [fetchEvolution] leave of a stored evolution
    list. *)
Lemma fetchEvolution_start_keeps_evolutions (s : state) (f : Feature.t)
    (fid : string) (ev : list Commit.t) :
  get (evolutions s) fid = Some ev ->
  get (evolutions (fetchEvolution_start s f).1) fid = Some ev
  /\ Forall (fun t => awaits_evolution fid t = false) (fetchEvolution_start s f).2
  /\ Forall (fun r => asks_evolution fid r = false)
       (map request_of (fetchEvolution_start s f).2).
Proof.
  intros Hg. destruct (decide (Feature.id f = fid)) as [<-|Hne].
  - rewrite (AppFacts.fetchEvolution_hit s f ev Hg). simpl.
    split; [exact Hg|]. split; constructor.
  - assert (Hb : String.eqb (Feature.id f) fid = false) by (apply String.eqb_neq; exact Hne).
    unfold fetchEvolution_start.
    destruct (holds (evolutions s) (Feature.id f)); simpl.
    + split; [exact Hg|]. split; constructor.
    + destruct (analysis s) as [a|]; simpl.
      * split; [destruct s; exact Hg|].
        split; repeat constructor; [exact Hb|].
        unfold asks_evolution. simpl. rewrite Hb, ?andb_false_r. reflexivity.
      * split; [|split; constructor].
        destruct s; simpl in *. rewrite AppFacts.get_insert_ne by exact Hne. exact Hg.
Qed.

Lemma fetchTimeline_start_keeps_evolutions (s : state) (f : Feature.t)
    (fid : string) (ev : list Commit.t) :
  get (evolutions s) fid = Some ev ->
  get (evolutions (fetchTimeline_start s f).1) fid = Some ev
  /\ Forall (fun t => awaits_evolution fid t = false) (fetchTimeline_start s f).2
  /\ Forall (fun r => asks_evolution fid r = false)
       (map request_of (fetchTimeline_start s f).2).
Proof.
  intros Hg. unfold fetchTimeline_start.
  destruct (holds (versions s) (Feature.id f)); simpl.
  - split; [exact Hg|]. split; constructor.
  - destruct (analysis s) as [a|]; simpl.
    + split; [destruct s; exact Hg|]. split; repeat constructor.
    + split; [destruct s; exact Hg|]. split; constructor.
Qed.

(** One event other than a new analysis keeps a stored evolution list that
    no outstanding request is about to overwrite, and sends no evolution
    request for its id. *)
Lemma evolutions_kept_step (fid : string) (ev : list Commit.t) (w : world) (e : event) :
  is_analyze e = false ->
  get (evolutions (ui w)) fid = Some ev ->
  inflight_evolution fid w = 0 ->
  get (evolutions (ui (step w e))) fid = Some ev
  /\ inflight_evolution fid (step w e) = 0
  /\ evolution_requests fid (issued (step w e)) = evolution_requests fid (issued w).
Proof.
  intros Hna Hg Hp. unfold inflight_evolution, evolution_requests in *.
  apply none_counted in Hp.
  assert (Hspawn : forall r : state * list task,
            get (evolutions r.1) fid = Some ev
            /\ Forall (fun t => awaits_evolution fid t = false) r.2
            /\ Forall (fun q => asks_evolution fid q = false) (map request_of r.2) ->
            get (evolutions (ui (spawn w r))) fid = Some ev
            /\ length (List.filter (awaits_evolution fid) (pending (spawn w r))) = 0
            /\ length (List.filter (asks_evolution fid) (issued (spawn w r)))
               = length (List.filter (asks_evolution fid) (issued w))).
  { intros r (H1 & H2 & H3). unfold spawn. simpl. split; [exact H1|]. split.
    - apply none_counted. apply Forall_app. split; assumption.
    - rewrite List.filter_app, length_app.
      apply none_counted in H3. rewrite H3. lia. }
  destruct e as [url|f|t|i reply]; [discriminate Hna| | |]; unfold step.
  - apply Hspawn. unfold handleSelectFeature.
    assert (Hg1 : get (evolutions (setActiveFeature (Some f) (ui w))) fid = Some ev)
      by (destruct (ui w); exact Hg).
    destruct (activeTab (ui w)).
    + apply fetchTimeline_start_keeps_evolutions. exact Hg1.
    + apply fetchEvolution_start_keeps_evolutions. exact Hg1.
  - apply Hspawn. unfold handleTabSwitch.
    assert (Hg1 : get (evolutions (setActiveTab t (ui w))) fid = Some ev)
      by (destruct (ui w); exact Hg).
    destruct (activeFeature (ui w)) as [f|].
    + destruct t.
      * apply fetchTimeline_start_keeps_evolutions. exact Hg1.
      * apply fetchEvolution_start_keeps_evolutions. exact Hg1.
    + simpl. split; [exact Hg1|]. split; constructor.
  - destruct (pending w !! i) as [t|] eqn:Hi.
    2:{ split; [exact Hg|]. split; [apply none_counted; exact Hp | reflexivity]. }
    simpl. split; [|split; [|reflexivity]].
    + assert (Ht : awaits_evolution fid t = false).
      { rewrite Forall_forall in Hp. apply Hp.
        apply (list_elem_of_lookup_2 _ i). exact Hi. }
      destruct t as [url|repo f|repo f]; simpl.
      * destruct (Api.analyzeRepo reply); destruct (ui w); exact Hg.
      * destruct (Api.getFeatureTimeline reply); destruct (ui w); exact Hg.
      * simpl in Ht. apply String.eqb_neq in Ht.
        destruct (Api.getFeatureEvolution reply); destruct (ui w); simpl in *;
          rewrite AppFacts.get_insert_ne by exact Ht; exact Hg.
    + apply none_counted.
      apply Forall_delete. exact Hp.
Qed.

Lemma evolutions_kept_run (fid : string) (ev : list Commit.t) (es : list event) (w : world) :
  Forall (fun e => is_analyze e = false) es ->
  get (evolutions (ui w)) fid = Some ev ->
  inflight_evolution fid w = 0 ->
  get (evolutions (ui (run w es))) fid = Some ev
  /\ inflight_evolution fid (run w es) = 0
  /\ evolution_requests fid (issued (run w es)) = evolution_requests fid (issued w).
Proof.
  intros Hes. revert w. induction Hes as [|e es He _ IH]; intros w Hg Hp.
  - repeat split; assumption.
  - rewrite RuntimeFacts.run_cons.
    destruct (evolutions_kept_step fid ev w e He Hg Hp) as (Hg' & Hp' & Hr').
    destruct (IH _ Hg' Hp') as (Hg2 & Hp2 & Hr2).
    split; [exact Hg2|]. split; [exact Hp2|]. congruence.
Qed.

(** C3, as the code has it. Until the next analysis is started, a list
    stored for a feature id, empty or not, that no outstanding request for
    the same id and cache can still overwrite stays as it is: whatever the
    user selects, whichever tab is opened and whatever replies arrive, the
    entry keeps its list, no further request for that id goes to the
    cache's endpoint, none becomes outstanding, and the panel of a feature
    with that id shows the stored list. *)
Theorem stored_list_is_kept (w : world) (fid : string) (es : list event) :
  Forall (fun e => is_analyze e = false) es ->
  (forall vs,
     get (versions (ui w)) fid = Some vs ->
     inflight_timeline fid w = 0 ->
     get (versions (ui (run w es))) fid = Some vs
     /\ timeline_requests fid (issued (run w es)) = timeline_requests fid (issued w)
     /\ inflight_timeline fid (run w es) = 0
     /\ (forall f, Feature.id f = fid ->
           fetchTimeline_start (ui (run w es)) f = (ui (run w es), [])
           /\ timeline_panel (ui (run w es)) f
              = TimelinePanel (VersionTimeline.VersionTimeline f (Some vs) false)))
  /\ (forall ev opened,
     get (evolutions (ui w)) fid = Some ev ->
     inflight_evolution fid w = 0 ->
     get (evolutions (ui (run w es))) fid = Some ev
     /\ evolution_requests fid (issued (run w es)) = evolution_requests fid (issued w)
     /\ inflight_evolution fid (run w es) = 0
     /\ (forall f, Feature.id f = fid ->
           fetchEvolution_start (ui (run w es)) f = (ui (run w es), [])
           /\ evolution_panel (ui (run w es)) f opened
              = EvolutionPanel
                  (CommitEvolution.CommitEvolution f (Some ev) false opened))).
Proof.
  intros Hes. split.
  - intros vs Hg Hp.
    destruct (versions_kept_run fid vs es w Hes Hg Hp) as (Hg' & Hp' & Hr').
    split; [exact Hg'|]. split; [exact Hr'|]. split; [exact Hp'|].
    intros f <-. split; [exact (AppFacts.fetchTimeline_hit _ f vs Hg')|].
    unfold timeline_panel.
    rewrite (AppFacts.read_stored _ _ _ Hg').
    rewrite Hg'. simpl. rewrite andb_false_r. reflexivity.
  - intros ev opened Hg Hp.
    destruct (evolutions_kept_run fid ev es w Hes Hg Hp) as (Hg' & Hp' & Hr').
    split; [exact Hg'|]. split; [exact Hr'|]. split; [exact Hp'|].
    intros f <-. split; [exact (AppFacts.fetchEvolution_hit _ f ev Hg')|].
    unfold evolution_panel.
    rewrite (AppFacts.read_stored _ _ _ Hg').
    rewrite Hg'. simpl. rewrite andb_false_r. reflexivity.
Qed.

(** The versions of [login] are stored and nothing is outstanding; the
    user opens the evolution tab, whose request fails, comes back to the
    timeline and clicks the card again: the versions are still there, and
    the one timeline request sent for [f1] is still the only one. *)
Lemma stored_list_is_kept_witness :
  Forall (fun e => is_analyze e = false) Sample.revisited
  /\ get (versions (ui (run boot Sample.timeline_stored))) "f1" = Some [Sample.v1]
  /\ inflight_timeline "f1" (run boot Sample.timeline_stored) = 0
  /\ get (versions (ui (run (run boot Sample.timeline_stored) Sample.revisited))) "f1"
     = Some [Sample.v1]
  /\ timeline_requests "f1" (issued (run (run boot Sample.timeline_stored) Sample.revisited))
     = timeline_requests "f1" (issued (run boot Sample.timeline_stored))
  /\ timeline_requests "f1" (issued (run boot Sample.timeline_stored)) = 1.
Proof.
  assert (Hes : Forall (fun e => is_analyze e = false) Sample.revisited)
    by (repeat constructor).
  assert (Hg : get (versions (ui (run boot Sample.timeline_stored))) "f1"
               = Some [Sample.v1]) by (vm_compute; reflexivity).
  assert (Hp : inflight_timeline "f1" (run boot Sample.timeline_stored) = 0)
    by (vm_compute; reflexivity).
  split; [exact Hes|]. split; [exact Hg|]. split; [exact Hp|].
  destruct (proj1 (stored_list_is_kept (run boot Sample.timeline_stored) "f1"
                     Sample.revisited Hes) [Sample.v1] Hg Hp) as (H1 & H2 & _).
  split; [exact H1|]. split; [exact H2|]. vm_compute. reflexivity.
Defined.

(** C3, as stated, fails: the card of [login] is clicked twice before the
    first reply, so two timeline requests are outstanding.  The first
    reply stores the versions.  When the second fails, the stored list is
    overwritten by the empty list; when it is a 200 whose body has no
    [versions], the entry becomes [undefined] and the next click sends a
    third request. *)
Lemma duplicate_reply_overwrites :
  feasible boot Sample.duplicate_fails = true
  /\ get (versions (ui (run boot Sample.double_click))) "f1" = Some [Sample.v1]
  /\ get (versions (ui (run boot Sample.duplicate_fails))) "f1" = Some []
  /\ feasible boot Sample.duplicate_without_list = true
  /\ versions (ui (run boot Sample.duplicate_without_list)) !! "f1" = Some None
  /\ timeline_requests "f1" (issued (run boot Sample.duplicate_without_list)) = 3.
Proof. vm_compute. repeat split. Qed.

End CacheFacts.

(** ** The evolution list: oldest to newest, and shown in that order *)

Module PipelineFacts.
Import Pipeline.

(** Not later than, and earlier than, by timestamp. *)
Lemma before_total : Total before.
Proof.
  intros a b. unfold before.
  destruct (Z.lt_trichotomy (timestamp a) (timestamp b)) as [H|[H|H]].
  - left. left. exact H.
  - destruct (String.leb_total (identifier a) (identifier b)) as [Hs|Hs].
    + left. right. split; assumption.
    + right. right. split; [symmetry|]; assumption.
  - right. left. exact H.
Qed.

Lemma before_not_later (a b : commit) : before a b -> not_later a b.
Proof. unfold before, not_later. intros [H|[H _]]; lia. Qed.

Lemma not_later_trans : Transitive not_later.
Proof. intros a b c. unfold not_later. lia. Qed.

Lemma Sorted_weaken {A : Type} (R R' : relation A) (l : list A) :
  (forall x y, R x y -> R' x y) -> Sorted R l -> Sorted R' l.
Proof.
  intros Himp. induction 1 as [|x l Hs IH Hhd]; constructor; [exact IH|].
  destruct Hhd; constructor. apply Himp. assumption.
Qed.

Lemma load_chronological (listed : list commit) :
  StronglySorted not_later (load listed).
Proof.
  apply (Sorted_StronglySorted _ (Transitive0 := not_later_trans)).
  apply (Sorted_weaken before); [exact before_not_later|].
  apply (Sorted_merge_sort _ (Total0 := before_total)).
Qed.

Lemma Forall_keep {A : Type} (P : A -> Prop) (p : A -> bool) (l : list A) :
  Forall P l -> Forall P (List.filter p l).
Proof.
  induction 1 as [|x l Hx _ IH]; simpl; [constructor|].
  destruct (p x); [constructor|]; assumption.
Qed.

Lemma StronglySorted_keep {A : Type} (R : relation A) (p : A -> bool) (l : list A) :
  StronglySorted R l -> StronglySorted R (List.filter p l).
Proof.
  induction 1 as [|x l _ IH Hx]; simpl; [constructor|].
  destruct (p x); [|exact IH].
  constructor; [exact IH | apply Forall_keep; exact Hx].
Qed.

(** A strongly sorted list without two equal timestamps is strictly
    increasing. *)
Lemma chronological_strict (l : list commit) :
  StronglySorted not_later l ->
  NoDup (timestamp <$> l) ->
  StronglySorted earlier l.
Proof.
  induction 1 as [|x l _ IH Hx]; intros Hnd; [constructor|].
  rewrite fmap_cons in Hnd. apply NoDup_cons in Hnd as [Hnotin Hnd].
  constructor; [exact (IH Hnd)|].
  apply Forall_forall. intros y Hy.
  pose proof (proj1 (Forall_forall _ _) Hx y Hy) as Hle.
  unfold not_later in Hle. unfold earlier.
  assert (timestamp x <> timestamp y).
  { intros Heq. apply Hnotin. rewrite Heq. apply list_elem_of_fmap_2. exact Hy. }
  lia.
Qed.

Lemma NoDup_keep {A B : Type} (g : A -> B) (p : A -> bool) (l : list A) :
  NoDup (g <$> l) -> NoDup (g <$> List.filter p l).
Proof.
  induction l as [|x l IH]; [intros; constructor|].
  rewrite fmap_cons. intros Hnd. apply NoDup_cons in Hnd as [Hnotin Hnd].
  simpl List.filter. destruct (p x); [|exact (IH Hnd)].
  rewrite fmap_cons. apply NoDup_cons. split; [|exact (IH Hnd)].
  intros Hin. apply Hnotin.
  apply list_elem_of_fmap in Hin as (y & -> & Hy).
  apply list_elem_of_fmap_2. apply list_elem_of_In in Hy.
  apply List.filter_In in Hy as [Hy _]. apply list_elem_of_In. exact Hy.
Qed.

(** The narrator keeps the commits and their order, whatever has
    finished and in whatever order. *)
Lemma narrate_commits (fileSet : gset string) (ordered : list commit)
    (finished : list (nat * option string)) :
  of_commit <$> narrate fileSet ordered finished = ordered.
Proof.
  unfold narrate. rewrite fmap_imap.
  rewrite (imap_ext _ (const id)).
  - rewrite imap_const. apply list_fmap_id.
  - intros i c _. simpl. destruct (aggregate c fileSet) as [[files adds] dels].
    reflexivity.
Qed.

(** C4. The evolution list of a feature is ordered oldest to newest by
    commit timestamp (strictly so when no two commits share a timestamp),
    whatever order the summaries finish in, and the CommitEvolution panel
    shows the entries of the list it receives in the order of the list:
    row [i] is the row of entry [i]. *)
Theorem evolution_oldest_to_newest (listed : list commit) (feature : Feature.t)
    (finished : list (nat * option string))
    (show_date : Z -> string) (short : string -> string)
    (received : list Commit.t) (opened : nat -> bool) :
  let ev := evolution listed feature finished in
  of_commit <$> ev
  = select (load listed) (list_to_set (Feature.files feature))
  /\ StronglySorted not_later (of_commit <$> ev)
  /\ (NoDup (timestamp <$> listed) -> StronglySorted earlier (of_commit <$> ev))
  /\ (forall i,
        CommitEvolution.panel_rows
          (CommitEvolution.CommitEvolution feature
             (Some (present show_date short <$> ev)) false opened) !! i
        = (fun e => (short (identifier (of_commit e)) +:+ pretty i,
                     CommitEvolution.CommitRow (present show_date short e) (opened i)))
          <$> ev !! i)
  /\ length (CommitEvolution.panel_rows
               (CommitEvolution.CommitEvolution feature (Some received) false opened))
     = length received
  /\ (forall i,
        CommitEvolution.panel_rows
          (CommitEvolution.CommitEvolution feature (Some received) false opened) !! i
        = (fun c => (Commit.sha c +:+ pretty i,
                     CommitEvolution.CommitRow c (opened i)))
          <$> received !! i).
Proof.
  intros ev.
  assert (Hcommits : of_commit <$> ev
                     = select (load listed) (list_to_set (Feature.files feature))).
  { subst ev. unfold evolution. apply narrate_commits. }
  assert (Hsorted : StronglySorted not_later (of_commit <$> ev)).
  { rewrite Hcommits. unfold select. apply StronglySorted_keep.
    apply load_chronological. }
  split; [exact Hcommits|]. split; [exact Hsorted|]. split; [|split; [|split]].
  - intros Hnd. apply chronological_strict; [exact Hsorted|].
    rewrite Hcommits. unfold select. apply NoDup_keep.
    unfold load. rewrite merge_sort_Permutation. exact Hnd.
  - intros i. rewrite CommitEvolutionFacts.CommitEvolution_rows.
    rewrite list_lookup_imap, list_lookup_fmap.
    destruct (ev !! i); reflexivity.
  - rewrite CommitEvolutionFacts.CommitEvolution_rows. apply length_imap.
  - intros i. rewrite CommitEvolutionFacts.CommitEvolution_rows.
    apply list_lookup_imap.
Qed.

(** The scenario of the specification: listed as C3, C2, C1, the evolution
    of the feature on [a.js] is C1, C3. *)
Lemma evolution_oldest_to_newest_witness :
  NoDup (timestamp <$> Sample.listed)
  /\ of_commit <$> evolution Sample.listed Sample.a_js Sample.finished
     = [Sample.C1; Sample.C3]
  /\ StronglySorted earlier
       (of_commit <$> evolution Sample.listed Sample.a_js Sample.finished).
Proof.
  assert (Hnd : NoDup (timestamp <$> Sample.listed)).
  { compute_done. }
  split; [exact Hnd|].
  pose proof (evolution_oldest_to_newest Sample.listed Sample.a_js Sample.finished
                (fun _ => EmptyString) (fun s => s) [] (fun _ => false))
    as (Hc & _ & Hs & _).
  split; [|exact (Hs Hnd)].
  rewrite Hc. vm_compute. reflexivity.
Defined.

End PipelineFacts.

(** ** RepoInput: trimming twice *)

Module TrimFacts.
Import RepoInput RepoInputFacts.

Lemma trimStart_fixed (s : text) :
  (forall c, head s = Some c -> isWhiteSpace c = false) -> trimStart s = s.
Proof.
  destruct s as [|c r]; simpl; [reflexivity|].
  intros H. rewrite (H c eq_refl). reflexivity.
Qed.

Lemma trimEnd_fixed (s : text) :
  (forall c, last s = Some c -> isWhiteSpace c = false) -> trimEnd s = s.
Proof.
  induction s as [|c r IH]; simpl; [reflexivity|].
  intros H. destruct r as [|d r'].
  - simpl. rewrite (H c eq_refl). reflexivity.
  - rewrite IH by (intros x Hx; apply H; rewrite last_cons_cons; exact Hx).
    reflexivity.
Qed.

Lemma trim_idempotent (s : text) : trim (trim s) = trim s.
Proof.
  destruct (trim_shape s) as (pre & post & _ & _ & _ & Hhead & Hlast).
  unfold trim at 1. rewrite (trimStart_fixed _ Hhead). apply trimEnd_fixed. exact Hlast.
Qed.

(** The text handed to [onAnalyze] is already trimmed: trimming is
    idempotent, so submitting that text again hands over the same text,
    and a text without white space at either end is handed over
    unchanged. *)
Theorem submitted_text_is_stable (url v : text) :
  handleSubmit url = Some v ->
  trim v = v
  /\ handleSubmit v = Some v
  /\ (dispatch false v ClickAnalyze).2 = Some v
  /\ (dispatch false v PressEnter).2 = Some v.
Proof.
  intros Hs.
  assert (Hv : v = trim url /\ truthy (trim url) = true).
  { unfold handleSubmit in Hs. destruct (truthy (trim url)); [|discriminate].
    injection Hs as <-. split; reflexivity. }
  destruct Hv as [-> Ht].
  assert (Hsub : handleSubmit (trim url) = Some (trim url)).
  { unfold handleSubmit. rewrite trim_idempotent, Ht. reflexivity. }
  split; [apply trim_idempotent|]. split; [exact Hsub|].
  unfold dispatch, button_disabled, input_disabled. rewrite trim_idempotent, Ht.
  simpl. split; exact Hsub.
Qed.

Lemma submitted_text_is_stable_witness :
  handleSubmit (of_string "  octo/app ") = Some (of_string "octo/app")
  /\ handleSubmit (of_string "octo/app") = Some (of_string "octo/app").
Proof.
  split; [reflexivity|].
  exact (proj1 (proj2 (submitted_text_is_stable (of_string "  octo/app ")
                         (of_string "octo/app") eq_refl))).
Defined.

End TrimFacts.

(** ** FeatureCard: what part of a path the badge shows *)

Module BasenameFacts.
Import FeatureCard FeatureCardFacts.

Lemma split_slash_nonempty (f : string) : split_slash f <> [].
Proof.
  destruct (split_slash_shape f) as (seg & segs & -> & _). discriminate.
Qed.

(** The segments of [dir/f] are those of [dir] followed by those of [f]. *)
Lemma split_slash_join (dir f : string) :
  split_slash (dir +:+ "/" +:+ f) = split_slash dir ++ split_slash f.
Proof.
  induction dir as [|c dir IH]; simpl; [reflexivity|].
  rewrite IH. destruct (Ascii.eqb c "/"); [reflexivity|].
  destruct (split_slash dir) as [|seg segs] eqn:Hd.
  - exfalso. exact (split_slash_nonempty dir Hd).
  - reflexivity.
Qed.

Lemma no_slash_one_segment (f : string) : no_slash f -> split_slash f = [f].
Proof.
  induction f as [|c r IH]; simpl; [reflexivity|].
  intros Hns. destruct (Ascii.eqb c "/") eqn:Hc.
  - apply Ascii.eqb_eq in Hc. subst c. exfalso. apply Hns. left. reflexivity.
  - rewrite IH; [reflexivity|]. intros Hin. apply Hns. right. exact Hin.
Qed.

(** The badge of a file shows only the part of its path after the last
    slash: putting any directory in front changes nothing, a path without
    a slash is shown whole, and a path that ends in a slash gives an empty
    badge. *)
Theorem badge_ignores_directory (dir f : string) :
  badge_text (file_badge (dir +:+ "/" +:+ f)) = badge_text (file_badge f)
  /\ (no_slash f -> badge_text (file_badge (dir +:+ "/" +:+ f)) = f)
  /\ (no_slash f -> badge_text (file_badge f) = f)
  /\ badge_text (file_badge (dir +:+ "/")) = EmptyString.
Proof.
  assert (Hpop : forall d g, pop (split_slash (d +:+ "/" +:+ g)) = pop (split_slash g)).
  { intros d g. unfold pop. rewrite split_slash_join, last_app.
    destruct (last (split_slash g)) eqn:Hl; [reflexivity|].
    exfalso. apply last_None in Hl. exact (split_slash_nonempty g Hl). }
  assert (Hone : forall g, no_slash g -> badge_text (file_badge g) = g).
  { intros g Hg. unfold file_badge. rewrite (no_slash_one_segment g Hg). reflexivity. }
  assert (Hdir : badge_text (file_badge (dir +:+ "/" +:+ f)) = badge_text (file_badge f)).
  { unfold file_badge. simpl. rewrite Hpop. reflexivity. }
  split; [exact Hdir|]. split; [|split; [exact (Hone f)|]].
  - intros Hf. rewrite Hdir. apply Hone. exact Hf.
  - change (dir +:+ "/") with (dir +:+ "/" +:+ EmptyString).
    unfold file_badge, badge_text. rewrite Hpop. reflexivity.
Qed.

Lemma badge_ignores_directory_witness :
  no_slash "login.js"
  /\ badge_text (file_badge ("src/auth" +:+ "/" +:+ "login.js")) = "login.js".
Proof.
  assert (Hns : no_slash "login.js").
  { intros Hin. simpl in Hin. repeat (destruct Hin as [Hin|Hin]; [discriminate Hin|]).
    exact Hin. }
  split; [exact Hns|].
  exact (proj1 (proj2 (badge_ignores_directory "src/auth" "login.js")) Hns).
Defined.

End BasenameFacts.

(** ** FeatureList: which cards are active *)

Module FeatureListFacts.
Import FeatureList.

Lemma is_active_iff (f : Feature.t) (activeId : JS.maybe string) :
  is_active f activeId = true <-> activeId = Some (Feature.id f).
Proof.
  destruct activeId as [a|]; simpl.
  - rewrite String.eqb_eq. split; [intros ->; reflexivity | intros [= ->]; reflexivity].
  - split; discriminate.
Qed.

Lemma active_cards_cons (x : Feature.t) (fs : list Feature.t)
    (activeId : JS.maybe string) :
  active_cards (FeatureList (x :: fs) activeId)
  = (if is_active x activeId
     then [(Feature.id x, FeatureCard.FeatureCard x true)] else [])
    ++ active_cards (FeatureList fs activeId).
Proof.
  unfold active_cards, FeatureList. simpl.
  destruct (is_active x activeId); reflexivity.
Qed.

Lemma none_active (fs : list Feature.t) (a : string) :
  a ∉ Feature.id <$> fs -> active_cards (FeatureList fs (Some a)) = [].
Proof.
  induction fs as [|x fs IH]; [reflexivity|].
  rewrite fmap_cons, not_elem_of_cons. intros [Hne Hnotin].
  rewrite active_cards_cons, (IH Hnotin). simpl.
  destruct (String.eqb_spec (Feature.id x) a) as [Heq|_]; [congruence | reflexivity].
Qed.

Lemma FeatureList_lookup (features : list Feature.t) (activeId : JS.maybe string)
    (i : nat) (f : Feature.t) :
  features !! i = Some f ->
  FeatureList features activeId !! i
  = Some (Feature.id f, FeatureCard.FeatureCard f (is_active f activeId)).
Proof. intros Hi. unfold FeatureList. rewrite list_lookup_fmap, Hi. reflexivity. Qed.

Lemma no_active_id (features : list Feature.t) :
  active_cards (FeatureList features None) = [].
Proof. induction features as [|x fs IH]; [reflexivity | exact IH]. Qed.

(** FeatureList renders one card per feature, in the order of the
    features and keyed by the feature id; a card is active exactly when
    its feature's id is the active id.  Without an active feature no card
    is active, and when the ids are pairwise distinct and the active
    feature is one of the features, exactly one card is. *)
Theorem FeatureList_cards (features : list Feature.t) (activeId : JS.maybe string) :
  length (FeatureList features activeId) = length features
  /\ (forall i f, features !! i = Some f ->
        exists card,
          FeatureList features activeId !! i = Some (Feature.id f, card)
          /\ FeatureCard.v_name card = Feature.name f
          /\ (FeatureCard.v_active card = true <-> activeId = Some (Feature.id f)))
  /\ (activeId = None -> active_cards (FeatureList features activeId) = [])
  /\ (forall f, f ∈ features -> NoDup (Feature.id <$> features) ->
        exists card,
          active_cards (FeatureList features (Some (Feature.id f)))
          = [(Feature.id f, card)]
          /\ FeatureCard.v_name card = Feature.name f).
Proof.
  split; [apply length_map|]. split; [|split].
  - intros i f Hi. eexists. unfold FeatureList. rewrite list_lookup_fmap, Hi. simpl.
    split; [reflexivity|]. split; [reflexivity|]. apply is_active_iff.
  - intros ->. induction features as [|x fs IH]; [reflexivity | exact IH].
  - intros f. induction features as [|x fs IH]; intros Hin Hnd.
    + inversion Hin.
    + rewrite fmap_cons in Hnd. apply NoDup_cons in Hnd as [Hx Hnd].
      apply elem_of_cons in Hin as [->|Hin].
      * eexists. rewrite active_cards_cons, (none_active fs _ Hx). simpl.
        rewrite String.eqb_refl. split; reflexivity.
      * destruct (IH Hin Hnd) as (card & Hcards & Hname).
        exists card. split; [|exact Hname].
        rewrite active_cards_cons, Hcards. simpl.
        destruct (String.eqb_spec (Feature.id x) (Feature.id f)) as [Heq|_].
        -- exfalso. apply Hx. rewrite Heq. apply list_elem_of_fmap_2. exact Hin.
        -- reflexivity.
Qed.

Lemma FeatureList_cards_witness :
  Sample.login ∈ [Sample.editor; Sample.login]
  /\ NoDup (Feature.id <$> [Sample.editor; Sample.login])
  /\ exists card,
       active_cards (FeatureList [Sample.editor; Sample.login] (Some "f1"))
       = [("f1", card)]
       /\ FeatureCard.v_name card = "Login".
Proof.
  assert (Hin : Sample.login ∈ [Sample.editor; Sample.login]) by compute_done.
  assert (Hnd : NoDup (Feature.id <$> [Sample.editor; Sample.login])) by compute_done.
  split; [exact Hin|]. split; [exact Hnd|].
  exact (proj2 (proj2 (proj2
           (FeatureList_cards [Sample.editor; Sample.login] None)))
           Sample.login Hin Hnd).
Defined.

End FeatureListFacts.

(** ** VersionTimeline *)

Module VersionTimelineFacts.
Import VersionTimeline.

(** VersionTimeline shows the loading state whenever [loading] is set,
    whatever [versions] holds; otherwise the "no version history" state
    exactly for a missing or an empty list; otherwise one node per version,
    in order and keyed by its index, under a count that is the length of
    the list and is put in the plural exactly for more than one version. *)
Theorem VersionTimeline_cases (feature : Feature.t)
    (versions : JS.maybe (list Version.t)) (loading : bool) :
  (loading = true ->
   VersionTimeline feature versions loading = Loading (Feature.name feature))
  /\ (loading = false ->
      ((versions = None \/ versions = Some []) <->
       VersionTimeline feature versions loading
       = NoHistory (Feature.name feature)
           "No version history could be determined for this feature."))
  /\ (loading = false -> forall vs, versions = Some vs -> vs <> [] ->
      exists plural nodes,
        VersionTimeline feature versions loading
        = Timeline (Feature.name feature) (length vs) plural nodes
        /\ (plural = true <-> 1 < length vs)
        /\ length nodes = length vs
        /\ forall i, nodes !! i = (fun v => (i, v)) <$> vs !! i).
Proof.
  split; [|split].
  - intros ->. reflexivity.
  - intros ->. unfold VersionTimeline. split.
    + intros [->| ->]; reflexivity.
    + destruct versions as [[|v vs]|]; [auto | discriminate | auto].
  - intros -> vs -> Hne. destruct vs as [|v vs]; [contradiction|].
    unfold VersionTimeline. eexists _, _. split; [reflexivity|].
    split; [|split].
    + rewrite Z.ltb_lt. lia.
    + apply length_imap.
    + intros i. apply list_lookup_imap.
Qed.

Lemma VersionTimeline_cases_witness :
  [Sample.v1] <> []
  /\ exists plural nodes,
       VersionTimeline Sample.login (Some [Sample.v1]) false
       = Timeline "Login" 1 plural nodes
       /\ nodes !! 0 = Some (0, Sample.v1).
Proof.
  assert (Hne : [Sample.v1] <> []) by discriminate.
  split; [exact Hne|].
  destruct (proj2 (proj2 (VersionTimeline_cases Sample.login (Some [Sample.v1]) false))
              eq_refl [Sample.v1] eq_refl Hne) as (plural & nodes & Hv & _ & _ & Hn).
  exists plural, nodes. split; [exact Hv | exact (Hn 0)].
Defined.

End VersionTimelineFacts.

(** ** FileStat and CommitRow: badges, totals, keys *)

Module RowFacts.
Import CommitEvolution.






(** A commit row shows its detail exactly when it is open.  Collapsed or
    not, the row itself shows a total only when it is positive, while the
    header of the file list always shows both totals, a missing total
    being shown as 0.  The file list is there exactly when
    [files_changed] is a non-empty array; its count is its number of rows
    and is put in the plural exactly for more than one file. *)
Theorem CommitRow_detail (commit : Commit.t) (open : bool) :
  let adds := default 0%Z (Commit.total_additions commit) in
  let dels := default 0%Z (Commit.total_deletions commit) in
  (cr_detail (CommitRow commit open) = None <-> open = false)
  /\ (StatAdd adds ∈ cr_stats (CommitRow commit open) <-> (0 < adds)%Z)
  /\ (StatDel dels ∈ cr_stats (CommitRow commit open) <-> (0 < dels)%Z)
  /\ (forall det, cr_detail (CommitRow commit open) = Some det ->
        (d_files det = None <->
         Commit.files_changed commit = None \/ Commit.files_changed commit = Some [])
        /\ forall fl, d_files det = Some fl ->
             fl_totals fl = (StatAdd adds, StatDel dels)
             /\ fl_count fl = length (fl_rows fl)
             /\ (fl_plural fl = true <-> 1 < fl_count fl)).
Proof.
  intros adds dels. unfold CommitRow.
  rewrite !CommitEvolutionFacts.or_zero_default. fold adds. fold dels. simpl.
  split; [|split; [|split]].
  - destruct open; split; congruence.
  - unfold when.
    destruct (Z.ltb_spec 0 adds) as [Ha|Ha], (Z.ltb_spec 0 dels) as [Hd|Hd]; simpl;
      (split; [intros Hin | intros Hpos]);
      first [ exact Ha
            | left
            | exfalso; lia
            | repeat (apply elem_of_cons in Hin as [Hin|Hin]; [discriminate Hin|]);
              inversion Hin ].
  - unfold when.
    destruct (Z.ltb_spec 0 adds) as [Ha|Ha], (Z.ltb_spec 0 dels) as [Hd|Hd]; simpl;
      (split; [intros Hin | intros Hpos]);
      first [ exact Hd
            | left
            | right; left
            | exfalso; lia
            | repeat (apply elem_of_cons in Hin as [Hin|Hin]; [discriminate Hin|]);
              inversion Hin ].
  - intros det. destruct open; [|discriminate]. intros [= <-]. simpl.
    destruct (Commit.files_changed commit) as [[|f fs]|]; simpl.
    + split; [split; auto|]. discriminate.
    + split; [split; [discriminate | intros [H|H]; discriminate H]|].
      intros fl [= <-]. simpl. split; [reflexivity|].
      split; [rewrite length_imap; reflexivity|].
      rewrite Z.ltb_lt. lia.
    + split; [split; auto|]. discriminate.
Qed.

Lemma CommitRow_detail_witness :
  (0 < default 0 (Commit.total_additions Sample.second_commit))%Z
  /\ StatAdd 5 ∈ cr_stats (CommitRow Sample.second_commit false)
  /\ exists det fl,
       cr_detail (CommitRow Sample.second_commit true) = Some det
       /\ d_files det = Some fl
       /\ fl_count fl = length (fl_rows fl).
Proof.
  assert (H : (0 < default 0 (Commit.total_additions Sample.second_commit))%Z)
    by (simpl; lia).
  split; [exact H|]. split.
  - exact (proj2 (proj1 (proj2 (CommitRow_detail Sample.second_commit false))) H).
  - eexists _, _. split; [reflexivity|]. split; [reflexivity|].
    exact (proj1 (proj2 (proj2 (proj2 (proj2 (proj2
             (CommitRow_detail Sample.second_commit true))) _ eq_refl) _ eq_refl))).
Defined.

Lemma append_same_length (s1 s2 t1 t2 : string) :
  String.length s1 = String.length s2 ->
  s1 +:+ t1 = s2 +:+ t2 -> s1 = s2 /\ t1 = t2.
Proof.
  revert s2. induction s1 as [|c s1 IH]; intros [|d s2]; simpl; try discriminate.
  - auto.
  - intros [= Hlen] [= -> Happ]. destruct (IH s2 Hlen Happ) as [-> ->]. auto.
Qed.

(** When all the commit ids of an evolution list have the same length
    (as abbreviated hashes do), the React keys [c.sha + i] of the rows are
    pairwise distinct, even for entries with the same id. *)
Theorem row_keys_distinct (feature : Feature.t) (ev : list Commit.t)
    (opened : nat -> bool) (n : nat) :
  (forall c, c ∈ ev -> String.length (Commit.sha c) = n) ->
  NoDup (row_keys (CommitEvolution feature (Some ev) false opened))
  /\ length (row_keys (CommitEvolution feature (Some ev) false opened)) = length ev.
Proof.
  intros Hlen. unfold row_keys. rewrite CommitEvolutionFacts.CommitEvolution_rows.
  split; [|rewrite length_fmap; apply length_imap].
  apply NoDup_alt. intros i j k Hi Hj.
  rewrite list_lookup_fmap, list_lookup_imap in Hi, Hj.
  destruct (ev !! i) as [ci|] eqn:Hci; [|discriminate].
  destruct (ev !! j) as [cj|] eqn:Hcj; [|discriminate].
  simpl in Hi, Hj. injection Hi as Hi. injection Hj as Hj.
  assert (Hsame : String.length (Commit.sha ci) = String.length (Commit.sha cj)).
  { rewrite (Hlen ci), (Hlen cj); [reflexivity| |];
      eapply list_elem_of_lookup_2; eassumption. }
  destruct (append_same_length _ _ _ _ Hsame (eq_trans Hi (eq_sym Hj))) as [_ Hp].
  exact (pretty_nat_inj _ _ Hp).
Qed.

Lemma row_keys_distinct_witness :
  (forall c, c ∈ [Sample.first_commit; Sample.first_commit] ->
             String.length (Commit.sha c) = 7)
  /\ NoDup (row_keys (CommitEvolution Sample.login
                        (Some [Sample.first_commit; Sample.first_commit])
                        false (fun _ => false))).
Proof.
  assert (H : forall c, c ∈ [Sample.first_commit; Sample.first_commit] ->
                        String.length (Commit.sha c) = 7).
  { intros c Hin. repeat (apply elem_of_cons in Hin as [->|Hin]; [reflexivity|]).
    inversion Hin. }
  split; [exact H|].
  exact (proj1 (row_keys_distinct Sample.login
                  [Sample.first_commit; Sample.first_commit] (fun _ => false) 7 H)).
Defined.

End RowFacts.

(** ** The fetch wrappers *)

Module ApiFacts.
Import Api.

(** Each of the three wrappers resolves exactly when the reply is ok and
    its body is JSON, and then with that body; a network failure rejects
    with the failure's own message, and a reply that is not ok always
    rejects with a message that is not empty. *)
Theorem wrappers_settle (reply : fetched) :
  analyzeRepo reply = receive reply
  /\ getFeatureTimeline reply = receive reply
  /\ getFeatureEvolution reply = receive reply
  /\ (forall b, receive reply = JS.Resolved b <->
        exists res, reply = Response res /\ ok res = true /\ json res = inr b)
  /\ (forall m, reply = NetworkError m -> receive reply = JS.Rejected m)
  /\ (forall res, reply = Response res -> ok res = false ->
        exists m, receive reply = JS.Rejected m /\ m <> EmptyString)
  /\ (forall res m, reply = Response res -> ok res = true -> json res = inl m ->
        receive reply = JS.Rejected m).
Proof.
  repeat (split; [reflexivity|]). split; [|split; [|split]].
  - intros b. split.
    + destruct reply as [m|res]; simpl; [discriminate|].
      destruct (ok res) eqn:Hok; simpl; [|discriminate].
      destruct (json res) as [m|b'] eqn:Hj; [discriminate|].
      intros [= <-]. exists res. auto.
    + intros (res & -> & Hok & Hj). simpl. rewrite Hok, Hj. reflexivity.
  - intros m ->. reflexivity.
  - intros res -> Hok. simpl. rewrite Hok. simpl. eexists. split; [reflexivity|].
    unfold JS.or_str.
    destruct (detail _) as [[|c d]|]; simpl; discriminate.
  - intros res m -> Hok Hj. simpl. rewrite Hok, Hj. reflexivity.
Qed.

Lemma wrappers_settle_witness :
  Api.ok {| ok := false; status := 502; json := inl "Unexpected token <" |} = false
  /\ exists m,
       receive (Response {| ok := false; status := 502; json := inl "Unexpected token <" |})
       = JS.Rejected m
       /\ m <> EmptyString.
Proof.
  split; [reflexivity|].
  exact (proj1 (proj2 (proj2 (proj2 (proj2 (proj2
           (wrappers_settle
              (Response {| ok := false; status := 502;
                           json := inl "Unexpected token <" |})))))))
           _ eq_refl eq_refl).
Defined.

End ApiFacts.

(** ** App: what the page shows after a handler has run *)

Module PageFacts.
Import App.

(** For an id that names no inherited member, the panels are those of the
    own entry. *)
Lemma timeline_panel_plain (s : state) (f : Feature.t) :
  JS.inherited (Feature.id f) = None ->
  timeline_panel s f
  = TimelinePanel
      (VersionTimeline.VersionTimeline f (get (versions s) (Feature.id f))
         (timelineLoading s && negb (JS.truthy_arr (get (versions s) (Feature.id f))))).
Proof.
  intros Hp. unfold timeline_panel, read.
  destruct (versions s !! Feature.id f); [reflexivity|]. rewrite Hp. reflexivity.
Qed.

Lemma evolution_panel_plain (s : state) (f : Feature.t) (opened : nat -> bool) :
  JS.inherited (Feature.id f) = None ->
  evolution_panel s f opened
  = EvolutionPanel
      (CommitEvolution.CommitEvolution f (get (evolutions s) (Feature.id f))
         (evolutionLoading s && negb (JS.truthy_arr (get (evolutions s) (Feature.id f))))
         opened).
Proof.
  intros Hp. unfold evolution_panel, read.
  destruct (evolutions s !! Feature.id f); [reflexivity|]. rewrite Hp. reflexivity.
Qed.

(** What the two fetch functions return, by the test they start with. *)
Lemma fetchTimeline_start_cases (s : state) (f : Feature.t) (a : Api.body) :
  analysis s = Some a ->
  fetchTimeline_start s f
  = if holds (versions s) (Feature.id f) then (s, [])
    else (setTimelineLoading true s, [AwaitTimeline (Api.repo a) f]).
Proof. intros Ha. unfold fetchTimeline_start. rewrite Ha. reflexivity. Qed.

Lemma fetchEvolution_start_cases (s : state) (f : Feature.t) (a : Api.body) :
  analysis s = Some a ->
  fetchEvolution_start s f
  = if holds (evolutions s) (Feature.id f) then (s, [])
    else (setEvolutionLoading true s, [AwaitEvolution (Api.repo a) f]).
Proof. intros Ha. unfold fetchEvolution_start. rewrite Ha. reflexivity. Qed.

(** The panel after a fetch was started for the active feature [f], the
    tab being [t]: the cached list, or the loading panel. *)
Lemma panel_after_fetch (s : state) (f : Feature.t) (a : Api.body) (t : tab)
    (opened : nat -> bool) :
  analysis s = Some a ->
  activeFeature s = Some f ->
  activeTab s = t ->
  JS.inherited (Feature.id f) = None ->
  let r := match t with
           | timeline => fetchTimeline_start s f
           | evolution => fetchEvolution_start s f
           end in
  (r_panel <$> v_results (render r.1 opened))
  = Some (Some match t with
               | timeline =>
                   TimelinePanel
                     (VersionTimeline.VersionTimeline f
                        (get (versions s) (Feature.id f))
                        (negb (JS.truthy_arr (get (versions s) (Feature.id f)))))
               | evolution =>
                   EvolutionPanel
                     (CommitEvolution.CommitEvolution f
                        (get (evolutions s) (Feature.id f))
                        (negb (JS.truthy_arr (get (evolutions s) (Feature.id f))))
                        opened)
               end)
  /\ map request_of r.2
     = match t with
       | timeline =>
           if JS.truthy_arr (get (versions s) (Feature.id f)) then []
           else [Api.getFeatureTimeline_request (Api.repo a) f]
       | evolution =>
           if JS.truthy_arr (get (evolutions s) (Feature.id f)) then []
           else [Api.getFeatureEvolution_request (Api.repo a) f]
       end
  /\ activeFeature r.1 = Some f
  /\ activeTab r.1 = t
  /\ analysis r.1 = Some a.
Proof.
  intros Ha Haf Htab Hp r. subst r. destruct t.
  - rewrite (fetchTimeline_start_cases s f a Ha), (AppFacts.holds_plain _ _ Hp).
    destruct s as [l e an af tab tl el vs evs]. simpl in Ha, Haf, Htab. subst an af tab.
    cbn [versions evolutions].
    destruct (JS.truthy_arr (get vs (Feature.id f))) eqn:Ht;
      unfold render; cbn [fst snd analysis activeFeature activeTab v_results fmap
                          option_fmap option_map r_panel setTimelineLoading
                          loading error timelineLoading evolutionLoading
                          versions evolutions];
      rewrite timeline_panel_plain by exact Hp;
      cbn [versions timelineLoading setTimelineLoading]; rewrite Ht; cbn [negb andb];
      rewrite ?andb_false_r; repeat split.
  - rewrite (fetchEvolution_start_cases s f a Ha), (AppFacts.holds_plain _ _ Hp).
    destruct s as [l e an af tab tl el vs evs]. simpl in Ha, Haf, Htab. subst an af tab.
    cbn [versions evolutions].
    destruct (JS.truthy_arr (get evs (Feature.id f))) eqn:Ht;
      unfold render; cbn [fst snd analysis activeFeature activeTab v_results fmap
                          option_fmap option_map r_panel setEvolutionLoading
                          loading error timelineLoading evolutionLoading
                          versions evolutions];
      rewrite evolution_panel_plain by exact Hp;
      cbn [evolutions evolutionLoading setEvolutionLoading]; rewrite Ht; cbn [negb andb];
      rewrite ?andb_false_r; repeat split.
Qed.

(** Selecting a feature of the loaded analysis, whose id names no member
    that every object inherits, makes it the active feature: its card, and
    every card with the same id, is drawn active, and the detail panel of
    the current tab is shown for it.  The panel holds the list cached for
    the feature's id when there is one, and no request is sent; otherwise
    it is the loading panel and exactly one request goes to the endpoint
    of the tab, with the repository of the analysis and the feature. *)
Theorem select_shows_panel (s : state) (f : Feature.t) (a : Api.body)
    (opened : nat -> bool) :
  analysis s = Some a ->
  JS.inherited (Feature.id f) = None ->
  let s' := (handleSelectFeature s f).1 in
  let sent := (handleSelectFeature s f).2 in
  activeFeature s' = Some f
  /\ activeTab s' = activeTab s
  /\ (exists r,
        v_results (render s' opened) = Some r
        /\ r_cards r = FeatureList.FeatureList (Api.features a) (Some (Feature.id f))
        /\ match activeTab s with
           | timeline =>
               r_panel r
               = Some (TimelinePanel
                         (VersionTimeline.VersionTimeline f
                            (get (versions s) (Feature.id f))
                            (negb (JS.truthy_arr (get (versions s) (Feature.id f))))))
               /\ map request_of sent
                  = if JS.truthy_arr (get (versions s) (Feature.id f)) then []
                    else [Api.getFeatureTimeline_request (Api.repo a) f]
           | evolution =>
               r_panel r
               = Some (EvolutionPanel
                         (CommitEvolution.CommitEvolution f
                            (get (evolutions s) (Feature.id f))
                            (negb (JS.truthy_arr (get (evolutions s) (Feature.id f))))
                            opened))
               /\ map request_of sent
                  = if JS.truthy_arr (get (evolutions s) (Feature.id f)) then []
                    else [Api.getFeatureEvolution_request (Api.repo a) f]
           end).
Proof.
  intros Ha Hp s' sent. subst s' sent. unfold handleSelectFeature.
  set (s1 := setActiveFeature (Some f) s).
  assert (Ha1 : analysis s1 = Some a) by (destruct s; exact Ha).
  assert (Hf1 : activeFeature s1 = Some f) by (destruct s; reflexivity).
  assert (Ht1 : activeTab s1 = activeTab s) by (destruct s; reflexivity).
  assert (Hv1 : versions s1 = versions s) by (destruct s; reflexivity).
  assert (He1 : evolutions s1 = evolutions s) by (destruct s; reflexivity).
  destruct (panel_after_fetch s1 f a (activeTab s) opened Ha1 Hf1 Ht1 Hp)
    as (Hpanel & Hsent & Haf & Htab & Han).
  rewrite Hv1, He1 in Hpanel, Hsent.
  destruct (activeTab s); cbn zeta in Hpanel, Hsent, Haf, Htab, Han;
    (split; [exact Haf|]); (split; [exact Htab|]).
  - destruct (v_results (render (fetchTimeline_start s1 f).1 opened)) as [r|] eqn:Hr;
      [|discriminate Hpanel].
    exists r. split; [reflexivity|]. split.
    + unfold render in Hr. rewrite Han, Haf in Hr. injection Hr as <-. reflexivity.
    + simpl in Hpanel. injection Hpanel as Hpanel. split; assumption.
  - destruct (v_results (render (fetchEvolution_start s1 f).1 opened)) as [r|] eqn:Hr;
      [|discriminate Hpanel].
    exists r. split; [reflexivity|]. split.
    + unfold render in Hr. rewrite Han, Haf in Hr. injection Hr as <-. reflexivity.
    + simpl in Hpanel. injection Hpanel as Hpanel. split; assumption.
Qed.

Lemma select_shows_panel_witness :
  analysis (Runtime.ui (Runtime.run Runtime.boot Sample.analysed)) = Some Sample.octo
  /\ JS.inherited (Feature.id Sample.login) = None
  /\ exists r,
       v_results
         (render (handleSelectFeature
                    (Runtime.ui (Runtime.run Runtime.boot Sample.analysed))
                    Sample.login).1 (fun _ => false)) = Some r
       /\ r_panel r = Some (TimelinePanel (VersionTimeline.Loading "Login"))
       /\ map request_of
            (handleSelectFeature (Runtime.ui (Runtime.run Runtime.boot Sample.analysed))
               Sample.login).2
          = [Api.getFeatureTimeline_request "octo/app" Sample.login].
Proof.
  assert (Ha : analysis (Runtime.ui (Runtime.run Runtime.boot Sample.analysed))
               = Some Sample.octo) by (vm_compute; reflexivity).
  split; [exact Ha|]. split; [reflexivity|].
  destruct (select_shows_panel _ Sample.login Sample.octo (fun _ => false) Ha eq_refl)
    as (_ & _ & r & Hr & _ & Hpanel).
  exists r. split; [exact Hr|]. exact Hpanel.
Defined.

(** Switching the tab keeps the active feature and, when its id names no
    member that every object inherits, shows its panel of the new tab: the
    cached list when there is one for the feature's id, the loading panel
    and one request to the new tab's endpoint otherwise.  Without an
    active feature only the tab changes and nothing is sent. *)
Theorem tab_switch_shows_panel (s : state) (t : tab) (opened : nat -> bool) :
  let s' := (handleTabSwitch s t).1 in
  let sent := (handleTabSwitch s t).2 in
  activeTab s' = t
  /\ activeFeature s' = activeFeature s
  /\ (activeFeature s = None -> sent = [] /\ s' = setActiveTab t s)
  /\ (forall f a, activeFeature s = Some f -> analysis s = Some a ->
        JS.inherited (Feature.id f) = None ->
        exists r,
          v_results (render s' opened) = Some r
          /\ match t with
             | timeline =>
                 r_panel r
                 = Some (TimelinePanel
                           (VersionTimeline.VersionTimeline f
                              (get (versions s) (Feature.id f))
                              (negb (JS.truthy_arr (get (versions s) (Feature.id f))))))
                 /\ map request_of sent
                    = if JS.truthy_arr (get (versions s) (Feature.id f)) then []
                      else [Api.getFeatureTimeline_request (Api.repo a) f]
             | evolution =>
                 r_panel r
                 = Some (EvolutionPanel
                           (CommitEvolution.CommitEvolution f
                              (get (evolutions s) (Feature.id f))
                              (negb (JS.truthy_arr (get (evolutions s) (Feature.id f))))
                              opened))
                 /\ map request_of sent
                    = if JS.truthy_arr (get (evolutions s) (Feature.id f)) then []
                      else [Api.getFeatureEvolution_request (Api.repo a) f]
             end).
Proof.
  intros s' sent. subst s' sent. unfold handleTabSwitch.
  destruct (activeFeature s) as [f|] eqn:Hact.
  2:{ destruct s; simpl in *. repeat split; try assumption; discriminate. }
  set (s1 := setActiveTab t s).
  assert (Hf1 : activeFeature s1 = Some f) by (destruct s; exact Hact).
  assert (Ht1 : activeTab s1 = t) by (destruct s; reflexivity).
  assert (Hv1 : versions s1 = versions s) by (destruct s; reflexivity).
  assert (He1 : evolutions s1 = evolutions s) by (destruct s; reflexivity).
  assert (Hcells : activeTab (match t with
                              | timeline => fetchTimeline_start s1 f
                              | evolution => fetchEvolution_start s1 f
                              end).1 = t
                   /\ activeFeature (match t with
                                     | timeline => fetchTimeline_start s1 f
                                     | evolution => fetchEvolution_start s1 f
                                     end).1 = Some f).
  { destruct t; unfold fetchTimeline_start, fetchEvolution_start;
      destruct (holds _ _); try (split; assumption);
      destruct (analysis s1); destruct s1; simpl in *; split; assumption. }
  destruct Hcells as [Hc1 Hc2].
  split; [exact Hc1|]. split; [exact Hc2|]. split; [discriminate|].
  intros f' a [= <-] Ha Hp.
  assert (Ha1 : analysis s1 = Some a) by (destruct s; exact Ha).
  destruct (panel_after_fetch s1 f a t opened Ha1 Hf1 Ht1 Hp)
    as (Hpanel & Hsent & Haf & Htab & Han).
  rewrite Hv1, He1 in Hpanel, Hsent.
  destruct t; cbn zeta in Hpanel, Hsent.
  - destruct (v_results (render (fetchTimeline_start s1 f).1 opened)) as [r|] eqn:Hr;
      [|discriminate Hpanel].
    exists r. split; [reflexivity|].
    simpl in Hpanel. injection Hpanel as Hpanel. split; assumption.
  - destruct (v_results (render (fetchEvolution_start s1 f).1 opened)) as [r|] eqn:Hr;
      [|discriminate Hpanel].
    exists r. split; [reflexivity|].
    simpl in Hpanel. injection Hpanel as Hpanel. split; assumption.
Qed.

Lemma tab_switch_shows_panel_witness :
  activeFeature (Runtime.ui (Runtime.run Runtime.boot Sample.timeline_stored))
  = Some Sample.login
  /\ analysis (Runtime.ui (Runtime.run Runtime.boot Sample.timeline_stored))
     = Some Sample.octo
  /\ JS.inherited (Feature.id Sample.login) = None
  /\ exists r,
       v_results
         (render (handleTabSwitch
                    (Runtime.ui (Runtime.run Runtime.boot Sample.timeline_stored))
                    evolution).1 (fun _ => false)) = Some r
       /\ r_panel r = Some (EvolutionPanel (CommitEvolution.Loading "Login"))
       /\ map request_of
            (handleTabSwitch
               (Runtime.ui (Runtime.run Runtime.boot Sample.timeline_stored))
               evolution).2
          = [Api.getFeatureEvolution_request "octo/app" Sample.login].
Proof.
  assert (Hf : activeFeature (Runtime.ui (Runtime.run Runtime.boot Sample.timeline_stored))
               = Some Sample.login) by (vm_compute; reflexivity).
  assert (Ha : analysis (Runtime.ui (Runtime.run Runtime.boot Sample.timeline_stored))
               = Some Sample.octo) by (vm_compute; reflexivity).
  split; [exact Hf|]. split; [exact Ha|]. split; [reflexivity|].
  exact (proj2 (proj2 (proj2 (tab_switch_shows_panel _ evolution (fun _ => false))))
           Sample.login Sample.octo Hf Ha eq_refl).
Defined.

(** A feature whose id names a member that every object inherits (such as
    [constructor]) and has no own entry is never fetched: the check at the
    head of [fetchTimeline] and [fetchEvolution] reads the inherited
    member, which is truthy, so nothing is sent and nothing is stored.  Its
    panel then gets that member instead of a list: it shows the "nothing
    could be determined" state for a function of length 0 and throws for
    any other member. *)
Theorem inherited_id_is_never_fetched (s : state) (f : Feature.t)
    (length : option nat) (opened : nat -> bool) :
  JS.inherited (Feature.id f) = Some length ->
  (versions s !! Feature.id f = None ->
   fetchTimeline_start s f = (s, [])
   /\ timeline_panel s f
      = match length with
        | Some 0 =>
            TimelinePanel
              (VersionTimeline.NoHistory (Feature.name f)
                 "No version history could be determined for this feature.")
        | _ => Throws
        end)
  /\ (evolutions s !! Feature.id f = None ->
      fetchEvolution_start s f = (s, [])
      /\ evolution_panel s f opened
         = match length with
           | Some 0 =>
               EvolutionPanel
                 (CommitEvolution.NoEvolution (Feature.name f)
                    "No commit-level evolution could be determined.")
           | _ => Throws
           end).
Proof.
  intros Hin. split; intros Hnone.
  - split.
    + unfold fetchTimeline_start.
      rewrite (AppFacts.holds_inherited _ _ _ Hin Hnone). reflexivity.
    + unfold timeline_panel, read, JS.maybe in *. rewrite Hnone, Hin.
      destruct length as [[|n]|]; reflexivity.
  - split.
    + unfold fetchEvolution_start.
      rewrite (AppFacts.holds_inherited _ _ _ Hin Hnone). reflexivity.
    + unfold evolution_panel, read, JS.maybe in *. rewrite Hnone, Hin.
      destruct length as [[|n]|]; reflexivity.
Qed.

Lemma inherited_id_is_never_fetched_witness :
  JS.inherited (Feature.id Sample.builder) = Some (Some 1)
  /\ versions (Runtime.ui (Runtime.run Runtime.boot Sample.analysed))
       !! Feature.id Sample.builder = None
  /\ fetchTimeline_start (Runtime.ui (Runtime.run Runtime.boot Sample.analysed))
       Sample.builder
     = (Runtime.ui (Runtime.run Runtime.boot Sample.analysed), [])
  /\ timeline_panel (Runtime.ui (Runtime.run Runtime.boot Sample.analysed))
       Sample.builder = Throws.
Proof.
  assert (Hn : versions (Runtime.ui (Runtime.run Runtime.boot Sample.analysed))
                 !! Feature.id Sample.builder = None) by (vm_compute; reflexivity).
  split; [reflexivity|]. split; [exact Hn|].
  exact (proj1 (inherited_id_is_never_fetched _ Sample.builder (Some 1)
                  (fun _ => false) eq_refl) Hn).
Defined.

(** The reply to a request for one feature changes nothing but the entry
    of that feature's id in its own cache and the loading flag of its own
    tab: the entries of all other ids, the whole other cache, the
    analysis, the error, the active feature and the active tab stay as
    they are. *)
Theorem settle_touches_one_entry (s : state) (f : Feature.t)
    (r : JS.settled Api.body) (k : string) :
  let t' := fetchTimeline_settle s f r in
  let e' := fetchEvolution_settle s f r in
  (k <> Feature.id f ->
   get (versions t') k = get (versions s) k
   /\ get (evolutions e') k = get (evolutions s) k)
  /\ evolutions t' = evolutions s
  /\ versions e' = versions s
  /\ (analysis t', error t', activeFeature t', activeTab t', loading t', evolutionLoading t')
     = (analysis s, error s, activeFeature s, activeTab s, loading s, evolutionLoading s)
  /\ (analysis e', error e', activeFeature e', activeTab e', loading e', timelineLoading e')
     = (analysis s, error s, activeFeature s, activeTab s, loading s, timelineLoading s)
  /\ timelineLoading t' = false
  /\ evolutionLoading e' = false.
Proof.
  intros t' e'. subst t' e'. split.
  - intros Hk. destruct r; simpl; split; apply AppFacts.get_insert_ne; congruence.
  - destruct r; repeat split.
Qed.

Lemma settle_touches_one_entry_witness :
  "f2" <> Feature.id Sample.login
  /\ get (versions (fetchTimeline_settle initial Sample.login
                      (JS.Resolved Sample.octo_timeline))) "f2" = None.
Proof.
  assert (Hne : "f2" <> Feature.id Sample.login) by discriminate.
  split; [exact Hne|].
  exact (proj1 (proj1 (settle_touches_one_entry initial Sample.login
                         (JS.Resolved Sample.octo_timeline) "f2") Hne)).
Defined.

End PageFacts.

(** ** The page at run time: what every reachable page satisfies *)

Module SessionFacts.
Import App Runtime.

Lemma count_delete {A : Type} (p : A -> bool) (l : list A) (i : nat) (x : A) :
  l !! i = Some x ->
  length (List.filter p l)
  = length (List.filter p (delete i l)) + (if p x then 1 else 0).
Proof.
  revert i. induction l as [|y l IH]; intros [|i] Hi; try discriminate.
  - injection Hi as ->. simpl. destruct (p x); simpl; lia.
  - simpl in Hi. specialize (IH i Hi).
    change (delete (S i) (y :: l)) with (y :: delete i l). simpl.
    destruct (p y); simpl; lia.
Qed.

Lemma count_app_none {A : Type} (p : A -> bool) (l k : list A) :
  Forall (fun x => p x = false) k ->
  length (List.filter p (l ++ k)) = length (List.filter p l).
Proof.
  intros Hk. rewrite List.filter_app, length_app.
  assert (List.filter p k = []) as ->; [|simpl; lia].
  induction Hk as [|x k Hx _ IH]; simpl; [reflexivity|]. rewrite Hx. exact IH.
Qed.

(** What a fetch start does to the cells the invariant looks at. *)
Lemma fetch_start_cells (s : state) (f : Feature.t) :
  (loading (fetchTimeline_start s f).1 = loading s
   /\ error (fetchTimeline_start s f).1 = error s
   /\ analysis (fetchTimeline_start s f).1 = analysis s
   /\ activeFeature (fetchTimeline_start s f).1 = activeFeature s
   /\ Forall (fun t => awaits_analysis t = false) (fetchTimeline_start s f).2)
  /\ (loading (fetchEvolution_start s f).1 = loading s
      /\ error (fetchEvolution_start s f).1 = error s
      /\ analysis (fetchEvolution_start s f).1 = analysis s
      /\ activeFeature (fetchEvolution_start s f).1 = activeFeature s
      /\ Forall (fun t => awaits_analysis t = false) (fetchEvolution_start s f).2).
Proof.
  unfold fetchTimeline_start, fetchEvolution_start.
  destruct s as [l e an af tab tl el vs evs]. simpl. split.
  - destruct (holds vs (Feature.id f)).
    + simpl. repeat split. constructor.
    + destruct an; simpl; repeat split; repeat constructor.
  - destruct (holds evs (Feature.id f)).
    + simpl. repeat split. constructor.
    + destruct an; simpl; repeat split; repeat constructor.
Qed.

(** A handler that starts a fetch with an analysis on display keeps the
    page consistent. *)
Lemma consistent_spawn (w : world) (s1 : state) (g : Feature.t) (a : Api.body)
    (r : state * list task) :
  consistent w ->
  analysis (ui w) = Some a ->
  loading s1 = loading (ui w) ->
  error s1 = error (ui w) ->
  analysis s1 = Some a ->
  activeFeature s1 = Some g ->
  g ∈ Api.features a ->
  (loading r.1 = loading s1
   /\ error r.1 = error s1
   /\ analysis r.1 = analysis s1
   /\ activeFeature r.1 = activeFeature s1
   /\ Forall (fun t => awaits_analysis t = false) r.2) ->
  consistent (spawn w r).
Proof.
  intros (Hc & Hl & He & _) Han L1 E1 A1 F1 Hin (L2 & E2 & A2 & F2 & Hf).
  unfold consistent, analyses_outstanding, spawn. simpl.
  rewrite (count_app_none _ _ _ Hf), L2, E2, A2, F2, L1, E1, A1, F1.
  split; [exact Hc|].
  split; [intros Hld; destruct (Hl Hld) as (_ & Hn & _); congruence|].
  split; [intros Hne; specialize (He Hne); congruence|].
  intros f [= <-]. exists a. auto.
Qed.

Lemma consistent_step (w : world) (e : event) :
  consistent w -> offered w e = true -> consistent (step w e).
Proof.
  intros Hcons Hoff. pose proof Hcons as (Hc & Hl & He & Ha).
  destruct e as [url|f|t|i reply]; simpl in Hoff.
  - (* a new analysis: the form was enabled, so nothing was loading *)
    apply andb_true_iff in Hoff as [Hnl _]. apply negb_true_iff in Hnl.
    unfold step. rewrite AppFacts.handleAnalyze_start_clears.
    unfold consistent, analyses_outstanding, spawn. simpl.
    rewrite List.filter_app, length_app. simpl.
    unfold analyses_outstanding in Hc. rewrite Hc, Hnl.
    split; [reflexivity|]. split; [auto|]. split; [congruence|]. discriminate.
  - destruct (analysis (ui w)) as [a|] eqn:Han; [|discriminate].
    apply bool_decide_eq_true in Hoff.
    unfold step, handleSelectFeature.
    destruct (fetch_start_cells (setActiveFeature (Some f) (ui w)) f) as [HT HE].
    destruct (activeTab (ui w));
      apply (consistent_spawn w (setActiveFeature (Some f) (ui w)) f a);
      try assumption; try reflexivity;
      destruct (ui w); simpl in *; congruence.
  - destruct (analysis (ui w)) as [a|] eqn:Han; [|discriminate].
    destruct (activeFeature (ui w)) as [f|] eqn:Haf; [|discriminate].
    destruct (Ha f eq_refl) as (a' & [= <-] & Hin).
    unfold step, handleTabSwitch. rewrite Haf.
    destruct (fetch_start_cells (setActiveTab t (ui w)) f) as [HT HE].
    destruct t;
      [apply (consistent_spawn w (setActiveTab timeline (ui w)) f a)
      |apply (consistent_spawn w (setActiveTab evolution (ui w)) f a)];
      try assumption; try reflexivity;
      destruct (ui w); simpl in *; congruence.
  - unfold step. destruct (pending w !! i) as [t|] eqn:Hi; [|exact Hcons].
    pose proof (count_delete awaits_analysis (pending w) i t Hi) as Hcount.
    fold (analyses_outstanding w) in Hcount.
    unfold consistent, analyses_outstanding.
    destruct t as [url|repo f|repo f]; unfold resume; cbn [ui pending] in *.
    + (* the analysis settles: it was loading *)
      simpl in Hcount.
      destruct (loading (ui w)) eqn:Hld; [|lia].
      destruct (Hl eq_refl) as (Herr & Han & Haf).
      assert (Hzero : length (List.filter awaits_analysis (delete i (pending w))) = 0)
        by lia.
      destruct (Api.analyzeRepo reply) as [data|m]; simpl.
      * split; [exact Hzero|]. split; [discriminate|].
        split; [congruence|]. intros g Hg. congruence.
      * split; [exact Hzero|]. split; [discriminate|].
        split; [intros _; exact Han|]. intros g Hg. congruence.
    + simpl in Hcount.
      assert (Hsame : length (List.filter awaits_analysis (delete i (pending w)))
                      = if loading (ui w) then 1 else 0) by lia.
      destruct (Api.getFeatureTimeline reply); simpl;
        (split; [exact Hsame|]); (split; [exact Hl|]); (split; [exact He | exact Ha]).
    + simpl in Hcount.
      assert (Hsame : length (List.filter awaits_analysis (delete i (pending w)))
                      = if loading (ui w) then 1 else 0) by lia.
      destruct (Api.getFeatureEvolution reply); simpl;
        (split; [exact Hsame|]); (split; [exact Hl|]); (split; [exact He | exact Ha]).
Qed.

Lemma consistent_run (es : list event) (w : world) :
  consistent w -> feasible w es = true -> consistent (run w es).
Proof.
  revert w. induction es as [|e es IH]; intros w Hc Hf; [exact Hc|].
  simpl in Hf. apply andb_true_iff in Hf as [Hoff Hf].
  apply IH; [apply consistent_step; assumption | exact Hf].
Qed.

Lemma consistent_boot : consistent boot.
Proof.
  unfold consistent. simpl. split; [reflexivity|]. split; [discriminate|].
  split; [congruence|]. discriminate.
Qed.




(** *** What a handler may add to the caches and to the network *)

Lemma fetch_start_keys (s : state) (f : Feature.t) :
  (dom (versions s) ⊆ dom (versions (fetchTimeline_start s f).1)
   /\ evolutions (fetchTimeline_start s f).1 = evolutions s)
  /\ (dom (evolutions s) ⊆ dom (evolutions (fetchEvolution_start s f).1)
      /\ versions (fetchEvolution_start s f).1 = versions s).
Proof.
  unfold fetchTimeline_start, fetchEvolution_start.
  destruct s as [l e an af tab tl el vs evs]. simpl. split.
  - destruct (holds vs (Feature.id f)); [split; reflexivity|].
    destruct an; simpl; split; try reflexivity.
    rewrite dom_insert_L. set_solver.
  - destruct (holds evs (Feature.id f)); [split; reflexivity|].
    destruct an; simpl; split; try reflexivity.
    rewrite dom_insert_L. set_solver.
Qed.

Lemma keys_step (w : world) (e : event) :
  is_analyze e = false ->
  dom (versions (ui w)) ⊆ dom (versions (ui (step w e)))
  /\ dom (evolutions (ui w)) ⊆ dom (evolutions (ui (step w e))).
Proof.
  intros Hna. destruct e as [url|f|t|i reply]; [discriminate| | |]; unfold step.
  - unfold handleSelectFeature, spawn. cbn [ui].
    destruct (fetch_start_keys (setActiveFeature (Some f) (ui w)) f)
      as [[HT1 HT2] [HE1 HE2]].
    destruct (activeTab (ui w)); [rewrite HT2 | rewrite HE2];
      destruct (ui w); simpl in *; split; set_solver.
  - unfold handleTabSwitch, spawn. cbn [ui].
    destruct (activeFeature (ui w)) as [f|]; [|destruct (ui w); split; reflexivity].
    destruct (fetch_start_keys (setActiveTab t (ui w)) f)
      as [[HT1 HT2] [HE1 HE2]].
    destruct t; [rewrite HT2 | rewrite HE2];
      destruct (ui w); simpl in *; split; set_solver.
  - destruct (pending w !! i) as [t|]; [|split; reflexivity]. cbn [ui].
    destruct t as [url|repo f|repo f]; unfold resume.
    + destruct (Api.analyzeRepo reply); destruct (ui w); split; reflexivity.
    + destruct (Api.getFeatureTimeline reply); destruct (ui w); simpl; split;
        try reflexivity; rewrite dom_insert_L; set_solver.
    + destruct (Api.getFeatureEvolution reply); destruct (ui w); simpl; split;
        try reflexivity; rewrite dom_insert_L; set_solver.
Qed.

(** Apart from starting a new analysis, nothing removes a key from either
    cache: a feature id that has an entry keeps one through every later
    click, tab switch and reply, and only [handleAnalyze] empties the
    caches. *)
Theorem cache_keys_only_grow (w : world) (es : list event) :
  Forall (fun e => is_analyze e = false) es ->
  dom (versions (ui w)) ⊆ dom (versions (ui (run w es)))
  /\ dom (evolutions (ui w)) ⊆ dom (evolutions (ui (run w es))).
Proof.
  intros Hes. revert w. induction Hes as [|e es He _ IH]; intros w.
  - split; reflexivity.
  - change (run w (e :: es)) with (run (step w e) es).
    destruct (keys_step w e He) as [H1 H2]. destruct (IH (step w e)) as [H3 H4].
    split; etrans; eassumption.
Qed.

Lemma cache_keys_only_grow_witness :
  Forall (fun e => is_analyze e = false)
         [TabSwitch timeline; Settle 0 (Sample.error_reply 500 None)]
  /\ "f1" ∈ dom (evolutions (ui (run (run boot Sample.evolution_failed)
                                   [TabSwitch timeline;
                                    Settle 0 (Sample.error_reply 500 None)]))).
Proof.
  assert (H : Forall (fun e => is_analyze e = false)
                [TabSwitch timeline; Settle 0 (Sample.error_reply 500 None)])
    by (repeat constructor).
  split; [exact H|].
  apply (proj2 (cache_keys_only_grow (run boot Sample.evolution_failed) _ H)).
  vm_compute. reflexivity.
Defined.

(** Deleting at an index past the end does nothing. *)
Lemma delete_absent {A : Type} (l : list A) (i : nat) :
  l !! i = None -> delete i l = l.
Proof.
  revert i. induction l as [|x l IH]; intros [|i] Hi; try reflexivity.
  - discriminate Hi.
  - change (delete (S i) (x :: l)) with (x :: delete i l). rewrite IH; [reflexivity|].
    exact Hi.
Qed.

(** What the test at the head of [fetchTimeline] and [fetchEvolution]
    finds: a stored list, or, without an own entry, a member that every
    object inherits. *)
Lemma holds_cases {A : Type} (m : gmap string (JS.maybe (list A))) (k : string) :
  holds m k = true
  <-> (exists l, m !! k = Some (Some l))
      \/ (m !! k = None /\ exists length, JS.inherited k = Some length).
Proof.
  unfold holds, read, JS.maybe in *. destruct (m !! k) as [[l|]|]; simpl.
  - split; [intros _; left; exists l; reflexivity | reflexivity].
  - split; [discriminate|]. intros [[l Hl]|[Hn _]]; discriminate.
  - destruct (JS.inherited k) as [len|]; simpl.
    + split; [intros _; right; split; [reflexivity | exists len; reflexivity]
             | reflexivity].
    + split; [discriminate|]. intros [[l Hl]|[_ [len Hl]]]; discriminate.
Qed.

(** The requests an event sends, exactly.  Submitting the form posts the
    URL to [/api/analyze].  Selecting a feature, or switching the tab with
    a feature active, posts the repository of the analysis and the feature
    to the endpoint of the tab in question, unless the test at the head of
    the fetch function succeeds, in which case nothing is sent; nothing is
    sent either when there is no analysis, or no active feature for the
    tab switch.  A reply sends nothing.  Each request sent is outstanding
    afterwards, behind those that already were. *)
Theorem requests_of_an_event (w : world) (e : event) :
  let sent :=
    match e with
    | Analyze url => [Api.analyzeRepo_request url]
    | SelectFeature f =>
        match analysis (ui w), activeTab (ui w) with
        | Some a, timeline =>
            if holds (versions (ui w)) (Feature.id f) then []
            else [Api.getFeatureTimeline_request (Api.repo a) f]
        | Some a, evolution =>
            if holds (evolutions (ui w)) (Feature.id f) then []
            else [Api.getFeatureEvolution_request (Api.repo a) f]
        | None, _ => []
        end
    | TabSwitch t =>
        match analysis (ui w), activeFeature (ui w), t with
        | Some a, Some f, timeline =>
            if holds (versions (ui w)) (Feature.id f) then []
            else [Api.getFeatureTimeline_request (Api.repo a) f]
        | Some a, Some f, evolution =>
            if holds (evolutions (ui w)) (Feature.id f) then []
            else [Api.getFeatureEvolution_request (Api.repo a) f]
        | _, _, _ => []
        end
    | Settle _ _ => []
    end in
  issued (step w e) = issued w ++ sent
  /\ match e with
     | Settle i _ => pending (step w e) = delete i (pending w)
     | _ => exists ts, pending (step w e) = pending w ++ ts
                       /\ map request_of ts = sent
     end
  /\ (forall fid,
        (holds (versions (ui w)) fid = true
         <-> (exists l, versions (ui w) !! fid = Some (Some l))
             \/ (versions (ui w) !! fid = None
                 /\ exists length, JS.inherited fid = Some length))
        /\ (holds (evolutions (ui w)) fid = true
            <-> (exists l, evolutions (ui w) !! fid = Some (Some l))
                \/ (evolutions (ui w) !! fid = None
                    /\ exists length, JS.inherited fid = Some length))).
Proof.
  intros sent. subst sent.
  split; [|split; [|intros fid; split; apply holds_cases]].
  - destruct e as [url|f|t|i reply]; unfold step.
    + rewrite AppFacts.handleAnalyze_start_clears. reflexivity.
    + unfold handleSelectFeature, fetchTimeline_start, fetchEvolution_start, spawn.
      destruct (ui w) as [l e an af tab tl el vs evs]. simpl.
      destruct tab; simpl.
      * destruct (holds vs (Feature.id f)), an; reflexivity.
      * destruct (holds evs (Feature.id f)), an; reflexivity.
    + unfold handleTabSwitch, fetchTimeline_start, fetchEvolution_start, spawn.
      destruct (ui w) as [l e an af tab tl el vs evs]. simpl.
      destruct af as [f|]; [|destruct an, t; reflexivity].
      destruct t; simpl.
      * destruct (holds vs (Feature.id f)), an; reflexivity.
      * destruct (holds evs (Feature.id f)), an; reflexivity.
    + rewrite app_nil_r. destruct (pending w !! i); reflexivity.
  - destruct e as [url|f|t|i reply]; unfold step.
    + rewrite AppFacts.handleAnalyze_start_clears. eexists. split; reflexivity.
    + unfold handleSelectFeature, fetchTimeline_start, fetchEvolution_start, spawn.
      destruct (ui w) as [l e an af tab tl el vs evs]. simpl.
      destruct tab; simpl.
      * destruct (holds vs (Feature.id f)), an; eexists; split; reflexivity.
      * destruct (holds evs (Feature.id f)), an; eexists; split; reflexivity.
    + unfold handleTabSwitch, fetchTimeline_start, fetchEvolution_start, spawn.
      destruct (ui w) as [l e an af tab tl el vs evs]. simpl.
      destruct af as [f|]; [|destruct an, t; eexists; split; reflexivity].
      destruct t; simpl.
      * destruct (holds vs (Feature.id f)), an; eexists; split; reflexivity.
      * destruct (holds evs (Feature.id f)), an; eexists; split; reflexivity.
    + destruct (pending w !! i) as [t|] eqn:Hi; [reflexivity|].
      symmetry. apply delete_absent. exact Hi.
Qed.

(** With [octo/app] analysed and nothing cached, clicking the card of
    [login] posts it to the timeline endpoint. *)
Lemma requests_of_an_event_witness :
  issued (step (run boot Sample.analysed) (SelectFeature Sample.login))
  = issued (run boot Sample.analysed)
    ++ [Api.getFeatureTimeline_request "octo/app" Sample.login]
  /\ exists ts,
       pending (step (run boot Sample.analysed) (SelectFeature Sample.login))
       = pending (run boot Sample.analysed) ++ ts
       /\ map request_of ts = [Api.getFeatureTimeline_request "octo/app" Sample.login].
Proof.
  pose proof (requests_of_an_event (run boot Sample.analysed)
                (SelectFeature Sample.login)) as (Hi & Hp & _).
  split; [exact Hi | exact Hp].
Defined.

(** When the reply to an analysis is ok, the page shows the results and
    nothing else: the banner of the repository, one inactive card per
    feature of the reply in the reply's order, no detail panel, no error,
    no spinner, no empty state.  The reply leaves both caches, the other
    outstanding requests and the log of requests sent as they were.  This
    holds wherever the page can get to, whatever happened between the
    submission and its reply. *)
Theorem analysis_success_page (es : list event) (i : nat) (url : RepoInput.text)
    (res : Api.response) (data : Api.body) (opened : nat -> bool) :
  feasible boot es = true ->
  pending (run boot es) !! i = Some (AwaitAnalyze url) ->
  Api.ok res = true ->
  Api.json res = inr data ->
  let w := run boot es in
  let w' := step w (Settle i (Api.Response res)) in
  v_error (render (ui w') opened) = None
  /\ v_spinner (render (ui w') opened) = false
  /\ v_input_loading (render (ui w') opened) = false
  /\ v_empty_state (render (ui w') opened) = false
  /\ (exists r,
        v_results (render (ui w') opened) = Some r
        /\ r_repo r = Api.repo data
        /\ r_panel r = None
        /\ length (r_cards r) = length (Api.features data)
        /\ FeatureList.active_cards (r_cards r) = []
        /\ forall j f, Api.features data !! j = Some f ->
             exists card, r_cards r !! j = Some (Feature.id f, card)
                          /\ FeatureCard.v_name card = Feature.name f)
  /\ versions (ui w') = versions (ui w)
  /\ evolutions (ui w') = evolutions (ui w)
  /\ pending w' = delete i (pending w)
  /\ issued w' = issued w.
Proof.
  intros Hfeas Hi Hok Hj w w'. subst w w'.
  pose proof (consistent_run es boot consistent_boot Hfeas) as (Hc & Hl & _).
  set (w := run boot es) in *.
  assert (Hload : loading (ui w) = true).
  { destruct (loading (ui w)); [reflexivity|]. exfalso.
    unfold analyses_outstanding in Hc.
    rewrite (count_delete awaits_analysis _ _ _ Hi) in Hc. simpl in Hc. lia. }
  destruct (Hl Hload) as (Herr & Han & Haf).
  unfold step. rewrite Hi. simpl.
  unfold Api.analyzeRepo, Api.receive. rewrite Hok, Hj.
  destruct (ui w) as [l e an af tab tl el vs evs]. simpl in *. subst e an af.
  repeat (split; [reflexivity|]).
  split; [|repeat split].
  eexists. split; [reflexivity|]. simpl.
  split; [reflexivity|]. split; [reflexivity|].
  split; [apply length_map|].
  split; [apply FeatureListFacts.no_active_id|].
  intros j f Hf. eexists.
  split; [apply FeatureListFacts.FeatureList_lookup; exact Hf | reflexivity].
Qed.

(** The timeline request for [login] of [octo/app] is outstanding when
    [acme/site] is submitted, and its reply lands first: the analysis of
    [acme/site] then shows its one card and no panel, and the versions
    that the late reply stored under [f1] are still in the cache. *)
Lemma analysis_success_page_witness :
  feasible boot Sample.stale_landed = true
  /\ pending (run boot Sample.stale_landed) !! 0 = Some (AwaitAnalyze Sample.acme_url)
  /\ get (versions (ui (run boot Sample.stale_landed))) "f1" = Some [Sample.v1]
  /\ versions (ui (step (run boot Sample.stale_landed)
                     (Settle 0 (Sample.ok_reply Sample.acme))))
     = versions (ui (run boot Sample.stale_landed))
  /\ exists r,
       v_results (render (ui (step (run boot Sample.stale_landed)
                                (Settle 0 (Sample.ok_reply Sample.acme))))
                    (fun _ => false)) = Some r
       /\ r_repo r = "acme/site"
       /\ r_panel r = None.
Proof.
  assert (Hf : feasible boot Sample.stale_landed = true) by (vm_compute; reflexivity).
  assert (Hp : pending (run boot Sample.stale_landed) !! 0
               = Some (AwaitAnalyze Sample.acme_url)) by (vm_compute; reflexivity).
  split; [exact Hf|]. split; [exact Hp|].
  split; [vm_compute; reflexivity|].
  pose proof (analysis_success_page Sample.stale_landed 0 Sample.acme_url
                {| Api.ok := true; Api.status := 200; Api.json := inr Sample.acme |}
                Sample.acme (fun _ => false) Hf Hp eq_refl eq_refl)
    as (_ & _ & _ & _ & (r & Hr & Hrepo & Hpanel & _) & Hv & _).
  split; [exact Hv|].
  exists r. split; [exact Hr|]. split; [exact Hrepo | exact Hpanel].
Defined.

End SessionFacts.
